(** * TEP Monitor dashboard: timer-driven state update and selection logic

    Shallow embedding of the two dashboard variants of the repository:
    - [Dashboard]: src/src/App.jsx (category KPIs, value-based status rule);
    - [Monitor]:   src/unnamed/part_000 (risk KPIs, system status, data log).

    JavaScript numbers are modelled as exact rationals ([Q]); sensor ids and
    log sequence numbers, which are always integral, as [Z].  Every call of
    [Math.random()] and of [new Date().toLocaleTimeString()] reads from an
    explicit oracle indexed by the position of the call inside the tick. *)

From Stdlib Require Import QArith Qround Lqa Ascii.
From stdpp Require Import gmap strings list pretty sorting.

Local Open Scope Z_scope.

(** ** JavaScript primitives used by the dashboards *)

Module Js.

(** [Math.min(a, b)] and [Math.max(a, b)] on numbers. *)
Definition Math_min (a b : Q) : Q := if Qlt_le_dec b a then b else a.
Definition Math_max (a b : Q) : Q := if Qlt_le_dec a b then b else a.

(** [a > b] on numbers. *)
Definition gt (a b : Q) : bool := if Qlt_le_dec b a then true else false.

(** [arr.slice(-k)]: the last [k] elements, the whole array if shorter. *)
Definition slice_last {A} (k : nat) (l : list A) : list A :=
  drop (length l - k)%nat l.

(** [arr.slice(0, k)] and [arr.slice(1)]. *)
Definition slice_to {A} (k : nat) (l : list A) : list A := take k l.
Definition slice_from {A} (k : nat) (l : list A) : list A := drop k l.

(** [arr.sort(cmp)]: a stable sort; [x] stays in front of [y] unless
    [cmp x y > 0]. *)
Fixpoint sort_insert {A} (cmp : A → A → Q) (x : A) (l : list A) : list A :=
  match l with
  | [] => [x]
  | y :: l' => if gt (cmp x y) 0 then y :: sort_insert cmp x l'
               else x :: y :: l'
  end.

Definition sort {A} (cmp : A → A → Q) (l : list A) : list A :=
  foldr (sort_insert cmp) [] l.

(** [x.toFixed(2)]: the integer [n] closest to [x * 100] (the larger one
    on a tie), printed with a point before its last two digits. *)
Definition two_digits (n : Z) : string :=
  if decide (n < 10) then "0" +:+ pretty n else pretty n.

Definition toFixed2 (x : Q) : string :=
  let neg := if Qlt_le_dec x 0 then true else false in
  let a := if neg then Qopp x else x in
  let n := Qfloor (a * 100 + (1 # 2)) in
  (if neg then "-" else "") +:+ pretty (n `div` 100) +:+ "." +:+
  two_digits (n `mod` 100).

End Js.

(** ** Data model *)

Record Sensor := mkSensor {
  id : Z;
  name : string;
  value : Q;
  risk : Q;
  status : string;
  type : string
}.

(** A chart point is a JavaScript object: a [time] string plus one numeric
    property [sensor_<id>] per selected sensor that was found. *)
Inductive JsVal :=
| JStr (s : string)
| JNum (q : Q).

Abbreviation ChartPoint := (gmap string JsVal).

Definition sensor_key (sensorId : Z) : string := "sensor_" +:+ pretty sensorId.

(** ** Selection manager: [handleSensorClick] (identical in both variants) *)

Definition handleSensorClick (selectedSensors : list Z) (sensorId : Z) : list Z :=
  if bool_decide (sensorId ∈ selectedSensors) then
    filter (λ i, i ≠ sensorId) selectedSensors
  else if bool_decide (length selectedSensors < 3)%nat then
    selectedSensors ++ [sensorId]
  else
    Js.slice_from 1 selectedSensors ++ [sensorId].

(** ** Oracles

    [random k] is the result of the [k]-th call of [Math.random()] made by
    one invocation, [clock k] the result of its [k]-th call of
    [new Date().toLocaleTimeString()]. *)

Record TickEnv := mkEnv {
  random : nat → Q;
  clock : nat → string
}.

(** ** Sensor model and update engine

    The two variants differ only in the status expressions, which are the
    parameters of this section. *)

Section Variant.

(** [Math.random() > 0.8 ? ... : ...] at creation, given the draw. *)
Variable initStatus : Q → string.
(** The status expression of the tick, given the draw and the sensor [s]
    being mapped. *)
Variable nextStatus : Q → Sensor → string.

Definition sensorType (i : Z) : string :=
  if bool_decide (i ≤ 13) then "temperature"
  else if bool_decide (i ≤ 26) then "pressure"
  else if bool_decide (i ≤ 39) then "flow"
  else "composition".

(** The object pushed at iteration [i] of the loop; it is the
    [Z.to_nat (i - 1)]-th iteration, and each iteration draws three
    times, in the order value, risk, status. *)
Definition newSensor (rnd : nat → Q) (i : Z) : Sensor :=
  let k := Z.to_nat (i - 1) in
  {| id := i;
     name := "XMEAS_" +:+ pretty i;
     value := (rnd (3 * k)%nat * 100)%Q;
     risk := (rnd (3 * k + 1)%nat * 100)%Q;
     status := initStatus (rnd (3 * k + 2)%nat);
     type := sensorType i |}.

(** The comparator [(a, b) => b.risk - a.risk]. *)
Definition byRisk (a b : Sensor) : Q := (risk b - risk a)%Q.

Definition generateTEPData (rnd : nat → Q) : list Sensor :=
  Js.sort byRisk (newSensor rnd <$> seqZ 1 52).

(** [Math.max(0, Math.min(100, x))]. *)
Definition clamp (x : Q) : Q := Js.Math_max 0 (Js.Math_min 100 x).

(** [(Math.random() - 0.5) * w]. *)
Definition perturb (r : Q) (w : Q) : Q := ((r - (1 # 2)) * w)%Q.

(** The object built by the [map] callback of the tick for the sensor at
    index [k] of [prev]: its three draws are calls [3k], [3k+1], [3k+2]. *)
Definition updateSensor (rnd : nat → Q) (k : nat) (s : Sensor) : Sensor :=
  {| id := id s;
     name := name s;
     value := clamp (value s + perturb (rnd (3 * k)%nat) 5)%Q;
     risk := clamp (risk s + perturb (rnd (3 * k + 1)%nat) 3)%Q;
     status := nextStatus (rnd (3 * k + 2)%nat) s;
     type := type s |}.

(** The updater passed to [setSensors]. *)
Definition setSensors_updater (rnd : nat → Q) (prev : list Sensor) : list Sensor :=
  Js.sort byRisk (imap (updateSensor rnd) prev).

End Variant.

(** ** Trend buffer (identical in both variants) *)

(** [sensors.find(s => s.id === sensorId)]. *)
Definition findSensor (sensors : list Sensor) (sensorId : Z) : option Sensor :=
  List.find (λ s, bool_decide (id s = sensorId)) sensors.

(** The [forEach] body: assign the property when the lookup hits. *)
Definition recordSensor (sensors : list Sensor) (dataPoint : ChartPoint)
    (sensorId : Z) : ChartPoint :=
  match findSensor sensors sensorId with
  | Some sensor => <[sensor_key sensorId := JNum (value sensor)]> dataPoint
  | None => dataPoint
  end.

Definition buildDataPoint (sensors : list Sensor) (selectedSensors : list Z)
    (now : string) : ChartPoint :=
  foldl (recordSensor sensors) {[ "time"%string := JStr now ]} selectedSensors.

(** The updater passed to [setChartData]; [sensors] and [selectedSensors]
    are the values captured by the effect's closure. *)
Definition setChartData_updater (sensors : list Sensor) (selectedSensors : list Z)
    (now : string) (prev : list ChartPoint) : list ChartPoint :=
  Js.slice_last 29 prev ++ [buildDataPoint sensors selectedSensors now].

(** ** Variant of src/src/App.jsx *)

Module Dashboard.

Definition initStatus (r : Q) : string :=
  if Js.gt r (8 # 10) then "warning" else "normal".

Definition nextStatus (r : Q) (s : Sensor) : string :=
  if Js.gt r (9 # 10) then "warning"
  else if Js.gt (value s) 80 then "warning" else "normal".

Record State := mkState {
  sensors : list Sensor;
  chartData : list ChartPoint;
  selectedSensors : list Z
}.

(** The [useState] initial values. *)
Definition init (rnd : nat → Q) : State :=
  {| sensors := generateTEPData initStatus rnd;
     chartData := [];
     selectedSensors := [1; 2; 3] |}.

(** One firing of the interval callback.  The chart updater reads the
    [sensors] and [selectedSensors] of the render that installed the
    interval, that is, of the state the tick starts from. *)
Definition tick (env : TickEnv) (st : State) : State :=
  {| sensors := setSensors_updater nextStatus (random env) (sensors st);
     chartData := setChartData_updater (sensors st) (selectedSensors st)
                    (clock env 0%nat) (chartData st);
     selectedSensors := selectedSensors st |}.

Definition click (sensorId : Z) (st : State) : State :=
  {| sensors := sensors st;
     chartData := chartData st;
     selectedSensors := handleSensorClick (selectedSensors st) sensorId |}.

(** The events that change the state, and a run over a list of them. *)
Inductive Event :=
| Tick (env : TickEnv)
| Click (sensorId : Z).

Definition step (st : State) (e : Event) : State :=
  match e with
  | Tick env => tick env st
  | Click sensorId => click sensorId st
  end.

Definition run (es : list Event) (st : State) : State := foldl step st es.

(** [ticks envs st]: consecutive ticks, one per oracle. *)
Definition ticks (envs : list TickEnv) (st : State) : State :=
  foldl (λ st env, tick env st) st envs.

(** The chart point each of these ticks produces. *)
Fixpoint points (envs : list TickEnv) (st : State) : list ChartPoint :=
  match envs with
  | [] => []
  | env :: envs' =>
      buildDataPoint (sensors st) (selectedSensors st) (clock env 0%nat)
      :: points envs' (tick env st)
  end.

End Dashboard.

(** ** Variant of src/unnamed/part_000 *)

Module Log.
Record Entry := mkEntry {
  no : Z;
  time : string;
  sensorName : string;
  value : string;
  status : string
}.
End Log.

Module Monitor.

Definition initStatus (r : Q) : string :=
  if Js.gt r (8 # 10) then "Critical" else "Normal".

Definition nextStatus (r : Q) (s : Sensor) : string :=
  if Js.gt r (85 # 100) then "Critical" else "Normal".

(** Derived KPIs. *)
Definition alertCount (sensors : list Sensor) : nat :=
  length (filter (λ s, status s = "Critical"%string) sensors).

Definition systemStatus (sensors : list Sensor) : string :=
  if bool_decide (alertCount sensors = 0%nat) then "NORMAL"
  else if bool_decide (alertCount sensors < 5)%nat then "WARNING"
  else "CRITICAL".

(** The entry built for the sensor at index [idx] of the top five; the
    chart point took clock call 0, so this one is call [idx + 1]. *)
Definition logEntry (clk : nat → string) (prev : list Log.Entry)
    (idx : nat) (s : Sensor) : Log.Entry :=
  {| Log.no := Z.of_nat (length prev) + Z.of_nat idx + 1;
     Log.time := clk (idx + 1)%nat;
     Log.sensorName := name s;
     Log.value := Js.toFixed2 (value s);
     Log.status := status s |}.

Definition recentSensors (sensors : list Sensor) (clk : nat → string)
    (prev : list Log.Entry) : list Log.Entry :=
  imap (logEntry clk prev) (Js.slice_to 5 sensors).

(** The updater passed to [setDataLog]. *)
Definition setDataLog_updater (sensors : list Sensor) (clk : nat → string)
    (prev : list Log.Entry) : list Log.Entry :=
  Js.slice_to 100 (recentSensors sensors clk prev ++ prev).

Record State := mkState {
  sensors : list Sensor;
  chartData : list ChartPoint;
  selectedSensors : list Z;
  dataLog : list Log.Entry
}.

Definition init (rnd : nat → Q) : State :=
  {| sensors := generateTEPData initStatus rnd;
     chartData := [];
     selectedSensors := [1; 2; 3];
     dataLog := [] |}.

Definition tick (env : TickEnv) (st : State) : State :=
  {| sensors := setSensors_updater nextStatus (random env) (sensors st);
     chartData := setChartData_updater (sensors st) (selectedSensors st)
                    (clock env 0%nat) (chartData st);
     selectedSensors := selectedSensors st;
     dataLog := setDataLog_updater (sensors st) (clock env) (dataLog st) |}.

Definition click (sensorId : Z) (st : State) : State :=
  {| sensors := sensors st;
     chartData := chartData st;
     selectedSensors := handleSensorClick (selectedSensors st) sensorId;
     dataLog := dataLog st |}.

Inductive Event :=
| Tick (env : TickEnv)
| Click (sensorId : Z).

Definition step (st : State) (e : Event) : State :=
  match e with
  | Tick env => tick env st
  | Click sensorId => click sensorId st
  end.

Definition run (es : list Event) (st : State) : State := foldl step st es.

Definition ticks (envs : list TickEnv) (st : State) : State :=
  foldl (λ st env, tick env st) st envs.

Fixpoint points (envs : list TickEnv) (st : State) : list ChartPoint :=
  match envs with
  | [] => []
  | env :: envs' =>
      buildDataPoint (sensors st) (selectedSensors st) (clock env 0%nat)
      :: points envs' (tick env st)
  end.

End Monitor.

(** ** Predicates used in the statements *)

(** Every draw of [Math.random()] lies in [0, 1). *)
Definition unit_draws (rnd : nat → Q) : Prop := ∀ k, (0 <= rnd k < 1)%Q.

Definition in_range (s : Sensor) : Prop :=
  (0 <= value s <= 100)%Q ∧ (0 <= risk s <= 100)%Q.

(** [s'] is [s] after one tick, for some perturbations of the stated size. *)
Definition perturbed (s s' : Sensor) : Prop :=
  ∃ dv dr : Q,
    (- (5 # 2) <= dv <= 5 # 2)%Q ∧ (- (3 # 2) <= dr <= 3 # 2)%Q ∧
    id s' = id s ∧
    value s' = clamp (value s + dv)%Q ∧
    risk s' = clamp (risk s + dr)%Q.

Definition riskDesc (a b : Sensor) : Prop := (risk b <= risk a)%Q.

(** Exactly 52 sensors, ids unique and ranging over 1..52, sorted by
    descending risk. *)
Definition collection_ok (l : list Sensor) : Prop :=
  length l = 52%nat ∧
  NoDup (id <$> l) ∧
  (∀ i : Z, i ∈ (id <$> l) ↔ 1 ≤ i ≤ 52) ∧
  StronglySorted riskDesc l.

(** ** Sample inputs *)

Definition half_env : TickEnv := mkEnv (λ _, 1 # 2)%Q (λ _, "12:00:00"%string).

(** Value draws of 0.9 (a perturbation of +2), all other draws 0.5. *)
Definition rising_env : TickEnv :=
  mkEnv (λ k, if (k `mod` 3 =? 0)%nat then 9 # 10 else 1 # 2)%Q
        (λ _, "12:00:01"%string).

Definition sample_sensor (i : Z) (v r : Q) : Sensor :=
  {| id := i; name := "XMEAS_" +:+ pretty i; value := v; risk := r;
     status := "normal"; type := sensorType i |}.

(** ** Further code of the two files: KPIs, uptime and rendering *)

(** [arr.reduce((acc, s) => acc + f(s), 0)]. *)
Definition sumBy (f : Sensor → Q) (l : list Sensor) : Q :=
  foldl (λ acc s, (acc + f s)%Q) 0%Q l.

Definition ofLength (n : nat) : Q := inject_Z (Z.of_nat n).

(** [a / arr.length].  [None] stands for the [NaN] of [0 / 0]: in every use
    below the numerator is a sum or a count over the array whose length is
    the denominator, so it is 0 when the length is. *)
Definition divLength (a : Q) (n : nat) : option Q :=
  match n with
  | O => None
  | S _ => Some (a / ofLength n)%Q
  end.

(** [sensors.filter(s => s.type === t)]. *)
Definition ofType (t : string) (sensors : list Sensor) : list Sensor :=
  filter (λ s, type s = t) sensors.

(** The KPI cards of src/src/App.jsx. *)
Module DashboardKpi.

Definition avgTemperature (sensors : list Sensor) : option Q :=
  divLength (sumBy value (ofType "temperature" sensors))
            (length (ofType "temperature" sensors)).

Definition avgPressure (sensors : list Sensor) : option Q :=
  divLength (sumBy value (ofType "pressure" sensors))
            (length (ofType "pressure" sensors)).

Definition avgFlow (sensors : list Sensor) : option Q :=
  divLength (sumBy value (ofType "flow" sensors))
            (length (ofType "flow" sensors)).

Definition systemHealth (sensors : list Sensor) : option Q :=
  (λ q, q * 100)%Q <$>
  divLength (ofLength (length (filter (λ s, status s = "normal"%string) sensors)))
            (length sensors).

End DashboardKpi.

(** The KPI cards of src/unnamed/part_000. *)
Module MonitorKpi.


(** [updateUptime], given [now - startTime.current] in milliseconds:
    [Math.floor] of a quotient by a positive constant is [`div`], and [%]
    is the remainder with the sign of the dividend, [`rem`]. *)
Definition uptimeHours (elapsed : Z) : Z := (elapsed `div` 1000) `div` 3600.

Definition uptimeMinutes (elapsed : Z) : Z :=
  ((elapsed `div` 1000) `rem` 3600) `div` 60.

Definition updateUptime (elapsed : Z) : string :=
  pretty (uptimeHours elapsed) +:+ "h " +:+ pretty (uptimeMinutes elapsed) +:+ "m".

(** The click handler of a chip under the chart. *)
Definition removeChip (selectedSensors : list Z) (sensorId : Z) : list Z :=
  filter (λ i, i ≠ sensorId) selectedSensors.

(** The rows of the log table: [dataLog.slice(0, 20)], each with its React
    key and its number column [String(row.no).padStart(2, '0')]. *)
Definition padStart2 (s : string) : string :=
  match String.length s with
  | O => "00"
  | S O => "0" +:+ s
  | _ => s
  end.

Definition rowKey (row : Log.Entry) (idx : nat) : string :=
  pretty (Log.no row) +:+ "-" +:+ pretty idx.

Definition logRows (dataLog : list Log.Entry) : list (string * string) :=
  imap (λ idx row, (rowKey row idx, padStart2 (pretty (Log.no row))))
       (Js.slice_to 20 dataLog).

End MonitorKpi.

(** *** Rendering shared by both variants *)

(** The ranking list shows [sensors.slice(0, 15)]. *)
Definition ranking (sensors : list Sensor) : list Sensor := Js.slice_to 15 sensors.

(** [risk > 70 ? 'text-red-400' : risk > 40 ? 'text-amber-400' : 'text-emerald-400']. *)
Definition riskTextClass (r : Q) : string :=
  if Js.gt r 70 then "text-red-400"
  else if Js.gt r 40 then "text-amber-400"
  else "text-emerald-400".

(** [sensorColors[idx]]; [None] is [undefined]. *)
Definition sensorColors (idx : nat) : option string :=
  match idx with
  | 0%nat => Some "#3b82f6"%string
  | 1%nat => Some "#8b5cf6"%string
  | 2%nat => Some "#10b981"%string
  | _ => None
  end.

(** The [Line] elements of the chart: [dataKey] and [stroke] of each. *)
Definition chartLines (selectedSensors : list Z) : list (string * option string) :=
  imap (λ idx sensorId, (sensor_key sensorId, sensorColors idx)) selectedSensors.

(** *** The events the user interface can raise *)

(** In src/src/App.jsx: the interval, and a click on row [index] of the
    ranking list, which calls [handleSensorClick(sensor.id)]. *)
Module DashboardUi.

Inductive Event :=
| Tick (env : TickEnv)
| RowClick (index : nat).

Definition step (st : Dashboard.State) (e : Event) : Dashboard.State :=
  match e with
  | Tick env => Dashboard.tick env st
  | RowClick index =>
      match ranking (Dashboard.sensors st) !! index with
      | Some sensor => Dashboard.click (id sensor) st
      | None => st
      end
  end.

Definition run (es : list Event) (st : Dashboard.State) : Dashboard.State :=
  foldl step st es.

End DashboardUi.

(** In src/unnamed/part_000 there is in addition the click on chip [idx],
    which removes that chip's id. *)
Module MonitorUi.

Inductive Event :=
| Tick (env : TickEnv)
| RowClick (index : nat)
| ChipClick (idx : nat).

Definition chipClick (idx : nat) (st : Monitor.State) : Monitor.State :=
  match Monitor.selectedSensors st !! idx with
  | Some sensorId =>
      {| Monitor.sensors := Monitor.sensors st;
         Monitor.chartData := Monitor.chartData st;
         Monitor.selectedSensors :=
           MonitorKpi.removeChip (Monitor.selectedSensors st) sensorId;
         Monitor.dataLog := Monitor.dataLog st |}
  | None => st
  end.

Definition step (st : Monitor.State) (e : Event) : Monitor.State :=
  match e with
  | Tick env => Monitor.tick env st
  | RowClick index =>
      match ranking (Monitor.sensors st) !! index with
      | Some sensor => Monitor.click (id sensor) st
      | None => st
      end
  | ChipClick idx => chipClick idx st
  end.

Definition run (es : list Event) (st : Monitor.State) : Monitor.State :=
  foldl step st es.

End MonitorUi.

(** The oracles of the ticks among a list of events. *)
Definition dashboardTicks (es : list DashboardUi.Event) : list TickEnv :=
  omap (λ e, match e with DashboardUi.Tick env => Some env | _ => None end) es.

Definition monitorTicks (es : list MonitorUi.Event) : list TickEnv :=
  omap (λ e, match e with MonitorUi.Tick env => Some env | _ => None end) es.

(** The numbers of a log filled by [n] ticks without truncation, newest
    block first. *)
Fixpoint numbering (n : nat) : list Z :=
  match n with
  | O => []
  | S m => seqZ (5 * Z.of_nat m + 1) 5 ++ numbering m
  end.

(** *** Predicates used in the further statements *)

Definition is_digit (c : Ascii.ascii) : bool :=
  (48 <=? Ascii.nat_of_ascii c)%nat && (Ascii.nat_of_ascii c <=? 57)%nat.

Fixpoint all_chars (P : Ascii.ascii → bool) (s : string) : bool :=
  match s with
  | EmptyString => true
  | String c s' => P c && all_chars P s'
  end.

(** Name and type are the ones [generateTEPData] derives from the id. *)
Definition labelled (s : Sensor) : Prop :=
  name s = "XMEAS_" +:+ pretty (id s) ∧ type s = sensorType (id s).

(** A selection as the interface keeps it: at most three ids, distinct,
    each the id of a sensor. *)
Definition selection_ok (sel : list Z) : Prop :=
  (length sel ≤ 3)%nat ∧ NoDup sel ∧ ∀ i, i ∈ sel → 1 ≤ i ≤ 52.

(** * Properties *)

Example toFixed2_ex1 : Js.toFixed2 (12345 # 1000) = "12.35"%string.
Proof. vm_compute. reflexivity. Qed.
Example toFixed2_ex2 : Js.toFixed2 (5 # 1000) = "0.01"%string.
Proof. vm_compute. reflexivity. Qed.
Example toFixed2_ex3 : Js.toFixed2 100 = "100.00"%string.
Proof. vm_compute. reflexivity. Qed.
Example toggle_ex : handleSensorClick [1;2;3] 4 = [2;3;4].
Proof. vm_compute. reflexivity. Qed.

(** ** Selection manager *)

Section Selection.
Implicit Types (s r : list Z) (x y : Z).

Lemma filter_ne_absent s x : x ∉ s → filter (λ i, i ≠ x) s = s.
Proof.
  induction s as [|y s IH]; intros Hx; [done|].
  apply not_elem_of_cons in Hx as [Hxy Hxs].
  rewrite filter_cons_True by congruence. by rewrite IH.
Qed.

Lemma filter_ne_snoc s x : x ∉ s → filter (λ i, i ≠ x) (s ++ [x]) = s.
Proof.
  intros Hx. rewrite filter_app, filter_ne_absent by done.
  rewrite filter_cons_False by (intros H; by apply H).
  by rewrite filter_nil, app_nil_r.
Qed.

Lemma filter_ne_split s1 s2 x :
  NoDup (s1 ++ x :: s2) → filter (λ i, i ≠ x) (s1 ++ x :: s2) = s1 ++ s2.
Proof.
  intros Hnd. apply NoDup_app in Hnd as (_ & Hdisj & Hnd2).
  apply NoDup_cons in Hnd2 as [Hx2 _].
  rewrite filter_app, filter_cons_False by (intros H; by apply H).
  rewrite !filter_ne_absent; [done|done|].
  intros Hx1. apply (Hdisj x Hx1). left.
Qed.

Lemma handleSensorClick_present s x :
  x ∈ s → handleSensorClick s x = filter (λ i, i ≠ x) s.
Proof. intros Hx. unfold handleSensorClick. by rewrite bool_decide_eq_true_2. Qed.

Lemma handleSensorClick_append s x :
  x ∉ s → (length s < 3)%nat → handleSensorClick s x = s ++ [x].
Proof.
  intros Hx Hlen. unfold handleSensorClick.
  rewrite bool_decide_eq_false_2 by done. by rewrite bool_decide_eq_true_2.
Qed.

Lemma handleSensorClick_evict s x :
  x ∉ s → ¬ (length s < 3)%nat → handleSensorClick s x = drop 1 s ++ [x].
Proof.
  intros Hx Hlen. unfold handleSensorClick, Js.slice_from.
  rewrite bool_decide_eq_false_2 by done. by rewrite bool_decide_eq_false_2.
Qed.

Lemma handleSensorClick_length s x :
  (length s ≤ 3)%nat → (length (handleSensorClick s x) ≤ 3)%nat.
Proof.
  intros Hlen. destruct (decide (x ∈ s)) as [Hx|Hx].
  - rewrite handleSensorClick_present by done.
    pose proof (length_filter (λ i, i ≠ x) s). lia.
  - destruct (decide (length s < 3)%nat).
    + rewrite handleSensorClick_append, length_app by done. simpl. lia.
    + rewrite handleSensorClick_evict, length_app, length_drop by done.
      simpl. lia.
Qed.

Lemma handleSensorClick_NoDup s x : NoDup s → NoDup (handleSensorClick s x).
Proof.
  intros Hnd. destruct (decide (x ∈ s)) as [Hx|Hx].
  - rewrite handleSensorClick_present by done. by apply NoDup_filter.
  - assert (Hsnoc : ∀ r, NoDup r → x ∉ r → NoDup (r ++ [x])).
    { intros r Hr Hxr. apply NoDup_app. split_and!; [done| |apply NoDup_singleton].
      intros y Hy ->%list_elem_of_singleton. done. }
    destruct (decide (length s < 3)%nat).
    + rewrite handleSensorClick_append by done. by apply Hsnoc.
    + rewrite handleSensorClick_evict by done. apply Hsnoc.
      * destruct s; [done|]. simpl. by apply NoDup_cons in Hnd as [_ ?].
      * intros Hin. apply Hx. destruct s; [done|]. simpl in Hin. by right.
Qed.

End Selection.

(** C3. On a selection of at most three distinct ids, [toggle x] removes [x]
    when it is selected, appends it when it is not and fewer than three ids
    are selected, and otherwise drops the id at index 0 and appends [x]; the
    result again has at most three distinct ids, and toggling 4 on [1,2,3]
    gives [2,3,4]. *)
Theorem handleSensorClick_spec (s : list Z) (x : Z) :
  (length s ≤ 3)%nat → NoDup s →
  (x ∈ s → ∃ s1 s2, s = s1 ++ x :: s2 ∧ handleSensorClick s x = s1 ++ s2) ∧
  (x ∉ s → (length s < 3)%nat → handleSensorClick s x = s ++ [x]) ∧
  (x ∉ s → length s = 3%nat →
     ∃ a b c, s = [a; b; c] ∧ handleSensorClick s x = [b; c; x]) ∧
  (length (handleSensorClick s x) ≤ 3)%nat ∧
  NoDup (handleSensorClick s x) ∧
  handleSensorClick [1; 2; 3] 4 = [2; 3; 4].
Proof.
  intros Hlen Hnd. split_and!.
  - intros Hx. destruct (list_elem_of_split _ _ Hx) as (s1 & s2 & ->).
    exists s1, s2. split; [done|].
    rewrite handleSensorClick_present by done. by apply filter_ne_split.
  - apply handleSensorClick_append.
  - intros Hx H3. destruct s as [|a [|b [|c [|d s]]]]; try discriminate.
    exists a, b, c. split; [done|].
    rewrite handleSensorClick_evict; [done|done|simpl; lia].
  - by apply handleSensorClick_length.
  - by apply handleSensorClick_NoDup.
  - reflexivity.
Qed.

Lemma handleSensorClick_spec_witness :
  (length [5; 7; 9]%Z ≤ 3)%nat ∧ NoDup [5; 7; 9] ∧
  (∃ a b c, [5; 7; 9] = [a; b; c] ∧ handleSensorClick [5; 7; 9] 2 = [b; c; 2]) ∧
  (length (handleSensorClick [5; 7; 9] 2)%Z ≤ 3)%nat ∧
  NoDup (handleSensorClick [5; 7; 9] 2).
Proof.
  assert (Hlen : (length [5; 7; 9]%Z ≤ 3)%nat) by (simpl; lia).
  assert (Hnd : NoDup [5; 7; 9]).
  { apply (bool_decide_unpack _). vm_compute. exact I. }
  destruct (handleSensorClick_spec [5; 7; 9] 2 Hlen Hnd) as (_ & _ & H3 & H4 & H5 & _).
  split_and!; [done|done| |done|done].
  apply H3; [|reflexivity].
  apply (bool_decide_unpack _). vm_compute. exact I.
Defined.

(** The claim "toggling the same id twice restores every selection" fails
    as soon as the first toggle evicts: from [1,2,3], toggling 4 twice leaves
    [2,3]. *)
Lemma toggle_twice_counterexample :
  handleSensorClick (handleSensorClick [1; 2; 3] 4) 4 = [2; 3] ∧
  handleSensorClick (handleSensorClick [1; 2; 3] 4) 4 ≠ [1; 2; 3].
Proof. split; [reflexivity|discriminate]. Qed.

(** C5 (amended). Toggling [x] twice returns exactly the selection [s] if
    and only if either [x] is not selected and fewer than three ids are
    selected (add, then remove), or [x] is the last id of [s], occurs nowhere
    else in it, and fewer than three other ids are selected (remove, then
    add again at the end). *)
Theorem toggle_twice_iff (s : list Z) (x : Z) :
  handleSensorClick (handleSensorClick s x) x = s ↔
    ((x ∉ s) ∧ (length s < 3)%nat) ∨
    (∃ r, s = r ++ [x] ∧ (x ∉ r) ∧ (length r < 3)%nat).
Proof.
  split.
  - intros Heq. destruct (decide (x ∈ s)) as [Hx|Hx].
    + right. exists (filter (λ i, i ≠ x) s).
      rewrite (handleSensorClick_present s x) in Heq by done.
      assert (Hnot : x ∉ filter (λ i, i ≠ x) s).
      { rewrite list_elem_of_filter. intros [Hp _]. by apply Hp. }
      assert (Hlt : (length (filter (λ i, i ≠ x) s) < length s)%nat).
      { apply (length_filter_lt _ _ x); [done|]. intros H. by apply H. }
      destruct (decide (length (filter (λ i, i ≠ x) s) < 3)%nat) as [Hl|Hl].
      * rewrite handleSensorClick_append in Heq by done. done.
      * rewrite handleSensorClick_evict in Heq by done.
        apply (f_equal length) in Heq.
        rewrite length_app, length_drop in Heq. simpl in Heq. lia.
    + destruct (decide (length s < 3)%nat) as [Hl|Hl]; [by left|].
      rewrite (handleSensorClick_evict s x) in Heq by done.
      rewrite handleSensorClick_present in Heq by (apply elem_of_app; right; left).
      apply (f_equal length) in Heq.
      pose proof (length_filter (λ i, i ≠ x) (drop 1 s ++ [x])) as Hle.
      assert (Hlt : (length (filter (λ i, i ≠ x) (drop 1 s ++ [x]))
                     < length (drop 1 s ++ [x]))%nat).
      { apply (length_filter_lt _ _ x); [apply elem_of_app; right; left|].
        intros H. by apply H. }
      rewrite length_app, length_drop in Hlt. simpl in Hlt. lia.
  - intros [[Hx Hl] | (r & -> & Hx & Hl)].
    + rewrite (handleSensorClick_append s x) by done.
      rewrite handleSensorClick_present by (apply elem_of_app; right; left).
      by apply filter_ne_snoc.
    + rewrite (handleSensorClick_present (r ++ [x]) x)
        by (apply elem_of_app; right; left).
      rewrite filter_ne_snoc by done. by apply handleSensorClick_append.
Qed.

Lemma toggle_twice_iff_witness :
  handleSensorClick (handleSensorClick [1; 2] 3) 3 = [1; 2] ∧
  handleSensorClick (handleSensorClick [1; 2; 3] 3) 3 = [1; 2; 3].
Proof.
  split.
  - apply (proj2 (toggle_twice_iff [1; 2] 3)). left. split.
    + apply (bool_decide_unpack _). vm_compute. exact I.
    + simpl. lia.
  - apply (proj2 (toggle_twice_iff [1; 2; 3] 3)). right. exists [1; 2].
    split_and!; [reflexivity| |simpl; lia].
    apply (bool_decide_unpack _). vm_compute. exact I.
Defined.

(** ** Derived KPIs *)

(** C7. The overall system status is NORMAL exactly when no sensor has
    status Critical, WARNING exactly when one to four have, and CRITICAL
    exactly when at least five have. *)
Theorem systemStatus_thresholds (sensors : list Sensor) :
  (Monitor.systemStatus sensors = "NORMAL"%string ↔
     Monitor.alertCount sensors = 0%nat) ∧
  (Monitor.systemStatus sensors = "WARNING"%string ↔
     (1 ≤ Monitor.alertCount sensors ≤ 4)%nat) ∧
  (Monitor.systemStatus sensors = "CRITICAL"%string ↔
     (5 ≤ Monitor.alertCount sensors)%nat).
Proof.
  unfold Monitor.systemStatus.
  repeat case_bool_decide; split_and!; split; intros; try discriminate;
    first [reflexivity | lia].
Qed.

(** ** Sorting *)

Section Sort.
Context {A : Type} (cmp : A → A → Q).

Lemma sort_insert_Permutation x l : Js.sort_insert cmp x l ≡ₚ x :: l.
Proof.
  induction l as [|y l IH]; simpl; [done|].
  destruct (Js.gt (cmp x y) 0); [|done].
  rewrite IH. apply Permutation_swap.
Qed.

Lemma sort_Permutation l : Js.sort cmp l ≡ₚ l.
Proof.
  induction l as [|x l IH]; simpl; [done|].
  unfold Js.sort in *. simpl. by rewrite sort_insert_Permutation, IH.
Qed.
End Sort.

Lemma gt_false a b : Js.gt a b = false → (a <= b)%Q.
Proof. unfold Js.gt. by destruct (Qlt_le_dec b a). Qed.

Lemma gt_true a b : Js.gt a b = true → (b < a)%Q.
Proof. unfold Js.gt. by destruct (Qlt_le_dec b a). Qed.

Lemma byRisk_le x y : Js.gt (byRisk x y) 0 = false → riskDesc x y.
Proof. intros H%gt_false. unfold byRisk, riskDesc in *. lra. Qed.

Lemma byRisk_gt x y : Js.gt (byRisk x y) 0 = true → riskDesc y x.
Proof. intros H%gt_true. unfold byRisk, riskDesc in *. lra. Qed.

#[local] Instance riskDesc_trans : Transitive riskDesc.
Proof. intros a b c. unfold riskDesc. lra. Qed.

Lemma sort_insert_Sorted x l :
  Sorted riskDesc l → Sorted riskDesc (Js.sort_insert byRisk x l).
Proof.
  induction 1 as [|y l Hs IH Hhd]; simpl; [by repeat constructor|].
  destruct (Js.gt (byRisk x y) 0) eqn:Hc.
  - constructor; [done|].
    destruct Hhd as [|z l Hyz]; simpl.
    + constructor. by apply byRisk_gt.
    + destruct (Js.gt (byRisk x z) 0); constructor; [done|by apply byRisk_gt].
  - constructor; [by constructor|]. constructor. by apply byRisk_le.
Qed.

Lemma sort_byRisk_sorted l : StronglySorted riskDesc (Js.sort byRisk l).
Proof.
  apply Sorted_StronglySorted; [apply _|].
  induction l as [|x l IH]; [constructor|].
  unfold Js.sort in *. simpl. by apply sort_insert_Sorted.
Qed.

(** ** Sensor collection *)

Section Collection.
Variable initStatus : Q → string.
Variable nextStatus : Q → Sensor → string.

Lemma newSensor_ids rnd (l : list Z) : id <$> (newSensor initStatus rnd <$> l) = l.
Proof. induction l as [|i l IH]; [done|]. by rewrite !fmap_cons, IH. Qed.

Lemma generateTEPData_ids rnd :
  id <$> generateTEPData initStatus rnd ≡ₚ seqZ 1 52.
Proof.
  unfold generateTEPData. rewrite sort_Permutation. by rewrite newSensor_ids.
Qed.

Lemma updateSensor_ids rnd prev :
  id <$> imap (updateSensor nextStatus rnd) prev = id <$> prev.
Proof.
  apply list_eq. intros i. rewrite !list_lookup_fmap, list_lookup_imap.
  by destruct (prev !! i).
Qed.

Lemma setSensors_updater_ids rnd prev :
  id <$> setSensors_updater nextStatus rnd prev ≡ₚ id <$> prev.
Proof.
  unfold setSensors_updater. rewrite sort_Permutation.
  by rewrite updateSensor_ids.
Qed.

Lemma collection_ok_intro l :
  id <$> l ≡ₚ seqZ 1 52 → StronglySorted riskDesc l → collection_ok l.
Proof.
  intros Hp Hs. split_and!; [| | |done].
  - rewrite <- (length_fmap id l), Hp, length_seqZ. reflexivity.
  - rewrite Hp. apply NoDup_seqZ.
  - intros i. rewrite Hp, elem_of_seqZ. lia.
Qed.

Lemma generateTEPData_ok rnd : collection_ok (generateTEPData initStatus rnd).
Proof.
  apply collection_ok_intro; [apply generateTEPData_ids|].
  apply sort_byRisk_sorted.
Qed.

Lemma setSensors_updater_ok rnd prev :
  id <$> prev ≡ₚ seqZ 1 52 →
  collection_ok (setSensors_updater nextStatus rnd prev).
Proof.
  intros Hp. apply collection_ok_intro; [|apply sort_byRisk_sorted].
  by rewrite setSensors_updater_ids.
Qed.

(** *** Clamping *)

Lemma clamp_range x : (0 <= clamp x <= 100)%Q.
Proof.
  unfold clamp, Js.Math_max, Js.Math_min.
  repeat destruct (Qlt_le_dec _ _); lra.
Qed.

Lemma perturb_5 r : (0 <= r < 1)%Q → (- (5 # 2) <= perturb r 5 <= 5 # 2)%Q.
Proof. unfold perturb. lra. Qed.

Lemma perturb_3 r : (0 <= r < 1)%Q → (- (3 # 2) <= perturb r 3 <= 3 # 2)%Q.
Proof. unfold perturb. lra. Qed.

Lemma updateSensor_perturbed rnd k s :
  unit_draws rnd → perturbed s (updateSensor nextStatus rnd k s).
Proof.
  intros Hr. exists (perturb (rnd (3 * k)%nat) 5), (perturb (rnd (3 * k + 1)%nat) 3).
  split; [apply perturb_5, Hr|].
  split; [apply perturb_3, Hr|].
  by split_and!.
Qed.

Lemma updateSensor_in_range rnd k s : in_range (updateSensor nextStatus rnd k s).
Proof. split; apply clamp_range. Qed.

Lemma setSensors_updater_perturbed rnd prev :
  unit_draws rnd →
  ∃ upd, Forall2 perturbed prev upd ∧
         setSensors_updater nextStatus rnd prev ≡ₚ upd.
Proof.
  intros Hr. exists (imap (updateSensor nextStatus rnd) prev). split.
  - apply Forall2_same_length_lookup_2; [by rewrite length_imap|].
    intros i s s' Hs. rewrite list_lookup_imap, Hs. simpl.
    intros [= <-]. by apply updateSensor_perturbed.
  - apply sort_Permutation.
Qed.

Lemma setSensors_updater_in_range rnd prev :
  Forall in_range (setSensors_updater nextStatus rnd prev).
Proof.
  unfold setSensors_updater. rewrite sort_Permutation.
  apply Forall_lookup. intros i s'. rewrite list_lookup_imap.
  destruct (prev !! i); simpl; [|done].
  intros [= <-]. apply updateSensor_in_range.
Qed.

End Collection.

(** C1. When every draw lies in [0, 1), one tick turns each sensor of an
    array with values and risks in [0, 100] into a sensor whose value is
    [clamp (value + dv)] and whose risk is [clamp (risk + dr)] for some
    [dv] in [-2.5, 2.5] and [dr] in [-1.5, 1.5] (the array is then
    re-ordered), and every value and risk is again in [0, 100]; in both
    variants. *)
Theorem tick_clamps (env : TickEnv) :
  unit_draws (random env) →
  (∀ st, Forall in_range (Dashboard.sensors st) →
     (∃ upd, Forall2 perturbed (Dashboard.sensors st) upd ∧
             Dashboard.sensors (Dashboard.tick env st) ≡ₚ upd) ∧
     Forall in_range (Dashboard.sensors (Dashboard.tick env st))) ∧
  (∀ st, Forall in_range (Monitor.sensors st) →
     (∃ upd, Forall2 perturbed (Monitor.sensors st) upd ∧
             Monitor.sensors (Monitor.tick env st) ≡ₚ upd) ∧
     Forall in_range (Monitor.sensors (Monitor.tick env st))).
Proof.
  intros Hr. split; intros st _; simpl; split.
  - by apply setSensors_updater_perturbed.
  - apply setSensors_updater_in_range.
  - by apply setSensors_updater_perturbed.
  - apply setSensors_updater_in_range.
Qed.

Lemma tick_clamps_witness :
  Forall in_range
    (Dashboard.sensors
       (Dashboard.tick half_env
          (Dashboard.mkState [sample_sensor 1 0 100; sample_sensor 2 (995 # 10) 1]
             [] [1; 2; 3]))).
Proof.
  assert (Hr : unit_draws (random half_env)).
  { intros k. simpl. split; [discriminate|reflexivity]. }
  apply (proj1 (tick_clamps half_env Hr)). simpl.
  repeat constructor; simpl; discriminate.
Defined.

(** C2. In every state reached from the initial one by ticks (and clicks),
    so after [generateTEPData] and after every tick, the collection has
    exactly 52 sensors, their ids are distinct and are the integers 1..52,
    and the array is sorted by descending risk; in both variants. *)
Theorem collection_invariant (rnd : nat → Q) :
  (∀ es, collection_ok (Dashboard.sensors (Dashboard.run es (Dashboard.init rnd)))) ∧
  (∀ es, collection_ok (Monitor.sensors (Monitor.run es (Monitor.init rnd)))).
Proof.
  split; intros es.
  - induction es as [|e es IH] using rev_ind.
    + apply generateTEPData_ok.
    + unfold Dashboard.run in *. rewrite foldl_app. simpl.
      destruct e as [env|i]; simpl; [|done].
      apply setSensors_updater_ok.
      destruct IH as (Hlen & Hnd & Hin & _).
      apply NoDup_Permutation; [done|apply NoDup_seqZ|].
      intros i. rewrite Hin, elem_of_seqZ. lia.
  - induction es as [|e es IH] using rev_ind.
    + apply generateTEPData_ok.
    + unfold Monitor.run in *. rewrite foldl_app. simpl.
      destruct e as [env|i]; simpl; [|done].
      apply setSensors_updater_ok.
      destruct IH as (Hlen & Hnd & Hin & _).
      apply NoDup_Permutation; [done|apply NoDup_seqZ|].
      intros i. rewrite Hin, elem_of_seqZ. lia.
Qed.

(** ** Status rule of src/src/App.jsx *)

Lemma rising_env_status_draw k : random rising_env (3 * k + 2)%nat = (1 # 2)%Q.
Proof.
  assert (Hmod : ((3 * k + 2) `mod` 3 = 2)%nat).
  { replace (3 * k + 2)%nat with (2 + k * 3)%nat by lia.
    by rewrite Nat.Div0.mod_add. }
  unfold rising_env. cbn [random]. by rewrite Hmod.
Qed.

(** The claim with the post-update value fails: start with every value at
    79 and let every value draw be 0.9; after the tick every value is 81,
    no status draw exceeds 0.9, and every status is normal. *)
Lemma status_rule_counterexample :
  let st' := Dashboard.tick rising_env (Dashboard.init (λ _, 79 # 100)%Q) in
  (∀ k, Js.gt (random rising_env (3 * k + 2)%nat) (9 # 10) = false) ∧
  length (Dashboard.sensors st') = 52%nat ∧
  Forall (λ s', (80 < value s')%Q ∧ status s' = "normal"%string)
         (Dashboard.sensors st').
Proof.
  split_and!.
  - intros k. by rewrite rising_env_status_draw.
  - reflexivity.
  - vm_compute. repeat (constructor; [split; reflexivity|]). constructor.
Qed.

(** C8 (amended). In the variant of src/src/App.jsx, when the status draw of
    a sensor does not exceed 0.9, its post-tick status is warning exactly
    when its value before the tick's update exceeds 80, and normal
    otherwise. *)
Theorem status_rule_pre_update (env : TickEnv) (st : Dashboard.State)
    (k : nat) (s : Sensor) :
  Dashboard.sensors st !! k = Some s →
  Js.gt (random env (3 * k + 2)%nat) (9 # 10) = false →
  let s' := updateSensor Dashboard.nextStatus (random env) k s in
  s' ∈ Dashboard.sensors (Dashboard.tick env st) ∧
  id s' = id s ∧
  (status s' = "warning"%string ↔ (80 < value s)%Q) ∧
  (status s' = "normal"%string ↔ (value s <= 80)%Q).
Proof.
  intros Hs Hdraw s'. split_and!.
  - simpl. unfold setSensors_updater. rewrite sort_Permutation.
    apply (list_elem_of_lookup_2 _ k). by rewrite list_lookup_imap, Hs.
  - reflexivity.
  - subst s'. unfold updateSensor. cbn [status]. unfold Dashboard.nextStatus.
    rewrite Hdraw.
    destruct (Js.gt (value s) 80) eqn:Hv.
    + apply gt_true in Hv. done.
    + apply gt_false in Hv. split; [discriminate|lra].
  - subst s'. unfold updateSensor. cbn [status]. unfold Dashboard.nextStatus.
    rewrite Hdraw.
    destruct (Js.gt (value s) 80) eqn:Hv.
    + apply gt_true in Hv. split; [discriminate|lra].
    + apply gt_false in Hv. done.
Qed.

Lemma status_rule_pre_update_witness :
  status (updateSensor Dashboard.nextStatus (random half_env) 0
            (sample_sensor 1 (85 # 1) 50)) = "warning"%string.
Proof.
  pose (st := Dashboard.mkState [sample_sensor 1 (85 # 1) 50] [] [1; 2; 3]).
  assert (Hs : Dashboard.sensors st !! 0%nat = Some (sample_sensor 1 (85 # 1) 50))
    by reflexivity.
  assert (Hd : Js.gt (random half_env (3 * 0 + 2)%nat) (9 # 10) = false)
    by reflexivity.
  destruct (status_rule_pre_update half_env st 0 _ Hs Hd) as (_ & _ & Hw & _).
  apply Hw. reflexivity.
Defined.

(** ** Trend buffer *)

#[local] Instance sensor_key_inj : Inj (=) (=) sensor_key.
Proof.
  intros i j H. unfold sensor_key in H.
  apply (inj (String.app _)) in H. by apply (inj pretty) in H.
Qed.

Lemma sensor_key_not_time i : sensor_key i ≠ "time"%string.
Proof. unfold sensor_key. simpl. discriminate. Qed.

Lemma findSensor_Some sensors i s :
  findSensor sensors i = Some s → s ∈ sensors ∧ id s = i.
Proof.
  intros [Hin Hid]%find_some. split; [by apply list_elem_of_In|].
  by apply bool_decide_eq_true in Hid.
Qed.

Lemma findSensor_None sensors i :
  findSensor sensors i = None → ∀ s, s ∈ sensors → id s ≠ i.
Proof.
  intros Hnone s Hin%list_elem_of_In.
  pose proof (find_none _ _ Hnone s Hin) as Hid. simpl in Hid.
  by apply bool_decide_eq_false in Hid.
Qed.

Lemma findSensor_is_Some sensors i :
  is_Some (findSensor sensors i) ↔ ∃ s, s ∈ sensors ∧ id s = i.
Proof.
  split.
  - intros [s Hs]. exists s. by apply findSensor_Some.
  - intros (s & Hin & Hid). destruct (findSensor sensors i) eqn:Hf; [done|].
    by destruct (findSensor_None _ _ Hf s Hin).
Qed.

Section DataPoint.
Variable sensors : list Sensor.

(** Keys of ids outside the selection are left as they were. *)
Lemma recordSensors_other (sel : list Z) (dp : ChartPoint) key :
  (∀ j, j ∈ sel → sensor_key j ≠ key) →
  foldl (recordSensor sensors) dp sel !! key = dp !! key.
Proof.
  revert dp. induction sel as [|j sel IH]; intros dp Hkey; [done|].
  simpl. rewrite IH by (intros j' Hj'; apply Hkey; by right).
  unfold recordSensor. destruct (findSensor sensors j); [|done].
  apply lookup_insert_ne, Hkey. left.
Qed.

(** A selected id whose lookup hits gets the found sensor's value. *)
Lemma recordSensors_hit (sel : list Z) (dp : ChartPoint) i s :
  i ∈ sel → findSensor sensors i = Some s →
  foldl (recordSensor sensors) dp sel !! sensor_key i = Some (JNum (value s)).
Proof.
  revert dp. induction sel as [|j sel IH]; intros dp Hin Hf.
  { by apply elem_of_nil in Hin. }
  simpl. destruct (decide (i ∈ sel)) as [Hsel|Hsel]; [by apply IH|].
  apply elem_of_cons in Hin as [->|?]; [|done].
  rewrite recordSensors_other.
  - unfold recordSensor. rewrite Hf. apply lookup_insert_eq.
  - intros j' Hj' Heq%(inj sensor_key). by subst.
Qed.

(** A lookup miss leaves the key as it was. *)
Lemma recordSensors_miss (sel : list Z) (dp : ChartPoint) i :
  findSensor sensors i = None →
  foldl (recordSensor sensors) dp sel !! sensor_key i = dp !! sensor_key i.
Proof.
  revert dp. induction sel as [|j sel IH]; intros dp Hf; [done|].
  simpl. rewrite IH by done. unfold recordSensor.
  destruct (findSensor sensors j) eqn:Hj; [|done].
  apply lookup_insert_ne. intros Heq%(inj sensor_key). congruence.
Qed.

Lemma buildDataPoint_time sel now :
  buildDataPoint sensors sel now !! "time"%string = Some (JStr now).
Proof.
  unfold buildDataPoint. rewrite recordSensors_other.
  - apply lookup_singleton_eq.
  - intros j _. apply sensor_key_not_time.
Qed.

Lemma buildDataPoint_hit sel now i s :
  i ∈ sel → findSensor sensors i = Some s →
  buildDataPoint sensors sel now !! sensor_key i = Some (JNum (value s)).
Proof. apply recordSensors_hit. Qed.

Lemma buildDataPoint_miss sel now i :
  findSensor sensors i = None →
  buildDataPoint sensors sel now !! sensor_key i = None.
Proof.
  intros Hf. unfold buildDataPoint. rewrite recordSensors_miss by done.
  apply lookup_singleton_ne. intros Heq. by apply (sensor_key_not_time i).
Qed.

Lemma buildDataPoint_unselected sel now i :
  i ∉ sel → buildDataPoint sensors sel now !! sensor_key i = None.
Proof.
  intros Hi. unfold buildDataPoint. rewrite recordSensors_other.
  - apply lookup_singleton_ne. intros Heq. by apply (sensor_key_not_time i).
  - intros j Hj Heq%(inj sensor_key). by subst.
Qed.

End DataPoint.

(** C9. The chart point of a tick has the key [sensor_<id>], for a selected
    id, exactly when the sensor array holds a sensor with that id (and then
    the key holds the value of the first such sensor); on a miss the key is
    simply absent.  In every case the point carries its [time] and is the
    last element of the new buffer, in both variants. *)
Theorem chart_point_keys (sensors : list Sensor) (selected : list Z) (now : string) :
  let point := buildDataPoint sensors selected now in
  (∀ i, i ∈ selected →
     (is_Some (point !! sensor_key i) ↔ ∃ s, s ∈ sensors ∧ id s = i) ∧
     (∀ s, findSensor sensors i = Some s →
           point !! sensor_key i = Some (JNum (value s))) ∧
     (findSensor sensors i = None → point !! sensor_key i = None)) ∧
  point !! "time"%string = Some (JStr now) ∧
  (∀ prev, last (setChartData_updater sensors selected now prev) = Some point) ∧
  (∀ env st, Dashboard.sensors st = sensors →
     Dashboard.selectedSensors st = selected → clock env 0%nat = now →
     last (Dashboard.chartData (Dashboard.tick env st)) = Some point) ∧
  (∀ env st, Monitor.sensors st = sensors →
     Monitor.selectedSensors st = selected → clock env 0%nat = now →
     last (Monitor.chartData (Monitor.tick env st)) = Some point).
Proof.
  intros point. split_and!.
  - intros i Hi. split_and!.
    + rewrite <- findSensor_is_Some. subst point.
      destruct (findSensor sensors i) as [s|] eqn:Hf.
      * rewrite (buildDataPoint_hit _ _ _ _ s) by done. split; by eexists.
      * rewrite buildDataPoint_miss by done. split; by intros [? ?].
    + intros s Hf. by apply buildDataPoint_hit.
    + apply buildDataPoint_miss.
  - apply buildDataPoint_time.
  - intros prev. apply last_snoc.
  - intros env st <- <- <-. apply last_snoc.
  - intros env st <- <- <-. apply last_snoc.
Qed.

Lemma chart_point_keys_witness :
  let point := buildDataPoint [sample_sensor 1 79 50] [1; 2] "12:00:00" in
  point !! sensor_key 1 = Some (JNum 79) ∧ point !! sensor_key 2 = None.
Proof.
  intros point.
  destruct (chart_point_keys [sample_sensor 1 79 50] [1; 2] "12:00:00")
    as (Hkeys & _).
  split.
  - destruct (Hkeys 1) as (_ & Hhit & _); [left|].
    apply (Hhit (sample_sensor 1 79 50)). reflexivity.
  - destruct (Hkeys 2) as (_ & _ & Hmiss); [right; left|].
    apply Hmiss. reflexivity.
Defined.

(** ** Event log *)

Lemma recentSensors_lookup sensors clk prev k s :
  (k < 5)%nat → sensors !! k = Some s →
  Monitor.recentSensors sensors clk prev !! k = Some (Monitor.logEntry clk prev k s).
Proof.
  intros Hk Hs. unfold Monitor.recentSensors, Js.slice_to.
  by rewrite list_lookup_imap, lookup_take_lt, Hs.
Qed.

Lemma recentSensors_length sensors clk prev :
  length (Monitor.recentSensors sensors clk prev) = (5 `min` length sensors)%nat.
Proof.
  unfold Monitor.recentSensors, Js.slice_to. by rewrite length_imap, length_take.
Qed.

Lemma setDataLog_updater_lookup sensors clk prev k s :
  (k < 5)%nat → sensors !! k = Some s →
  Monitor.setDataLog_updater sensors clk prev !! k
  = Some (Monitor.logEntry clk prev k s).
Proof.
  intros Hk Hs. unfold Monitor.setDataLog_updater, Js.slice_to.
  rewrite lookup_take_lt by lia.
  rewrite lookup_app_l.
  - by apply recentSensors_lookup.
  - rewrite recentSensors_length. apply lookup_lt_Some in Hs. lia.
Qed.

(** ** Order of reads and updates inside a tick *)

(** C10. The chart point a tick appends, and in the log variant the entries
    it creates, are built from the sensor array the tick starts from: the
    number under [sensor_<id>] is the value, before the update, of the sensor
    found for a selected id, and the entry at index [k < 5] of the new log
    holds the name and the formatted value, before the update, of the sensor
    at index [k] of that array. *)
Theorem tick_reads_pre_update (env : TickEnv) :
  (∀ st i s, i ∈ Dashboard.selectedSensors st →
     findSensor (Dashboard.sensors st) i = Some s →
     ∃ point, last (Dashboard.chartData (Dashboard.tick env st)) = Some point ∧
              point !! sensor_key i = Some (JNum (value s))) ∧
  (∀ st i s, i ∈ Monitor.selectedSensors st →
     findSensor (Monitor.sensors st) i = Some s →
     ∃ point, last (Monitor.chartData (Monitor.tick env st)) = Some point ∧
              point !! sensor_key i = Some (JNum (value s))) ∧
  (∀ st k s, (k < 5)%nat → Monitor.sensors st !! k = Some s →
     ∃ e, Monitor.dataLog (Monitor.tick env st) !! k = Some e ∧
          Log.value e = Js.toFixed2 (value s) ∧
          Log.sensorName e = name s ∧
          Log.status e = status s).
Proof.
  split_and!.
  - intros st i s Hi Hf. eexists. split; [apply last_snoc|].
    by apply buildDataPoint_hit.
  - intros st i s Hi Hf. eexists. split; [apply last_snoc|].
    by apply buildDataPoint_hit.
  - intros st k s Hk Hs. eexists. split.
    + simpl. by apply setDataLog_updater_lookup.
    + done.
Qed.

Lemma tick_reads_pre_update_witness :
  ∃ e, Monitor.dataLog
         (Monitor.tick rising_env
            (Monitor.mkState [sample_sensor 1 79 50] [] [1] [])) !! 0%nat = Some e ∧
       Log.value e = Js.toFixed2 79.
Proof.
  destruct (tick_reads_pre_update rising_env) as (_ & _ & Hlog).
  destruct (Hlog (Monitor.mkState [sample_sensor 1 79 50] [] [1] []) 0%nat
              (sample_sensor 1 79 50)) as (e & He & Hv & _).
  - lia.
  - reflexivity.
  - exists e. split; [exact He|exact Hv].
Defined.

(** On a concrete tick the recorded number is the stale one: sensor 1 is
    at 79 before the tick and at 81 after it, and the chart point holds 79
    while the log entry reads 79.00. *)
Example stale_read_example :
  let st := Monitor.mkState [sample_sensor 1 79 50] [] [1] [] in
  let st' := Monitor.tick rising_env st in
  value <$> Monitor.sensors st' = [clamp (79 + perturb (9 # 10) 5)] ∧
  (clamp (79 + perturb (9 # 10) 5) == 81)%Q ∧
  (last (Monitor.chartData st') ≫= (.!! sensor_key 1)) = Some (JNum 79) ∧
  Log.value <$> Monitor.dataLog st' = ["79.00"%string].
Proof. vm_compute. split_and!; reflexivity. Qed.

(** ** Sliding window of the trend buffer *)

Section Window.
Context {A : Type}.
Implicit Types (l r : list A).

Lemma slice_last_short n l : (length l ≤ n)%nat → Js.slice_last n l = l.
Proof.
  intros H. unfold Js.slice_last.
  by replace (length l - n)%nat with 0%nat by lia.
Qed.

Lemma slice_last_length n l : length (Js.slice_last n l) = (length l `min` n)%nat.
Proof. unfold Js.slice_last. rewrite length_drop. lia. Qed.

(** Truncating early does not change what a later truncation keeps. *)
Lemma slice_last_app m n l r :
  (n ≤ m + length r)%nat →
  Js.slice_last n (Js.slice_last m l ++ r) = Js.slice_last n (l ++ r).
Proof.
  intros Hn. destruct (decide (length l ≤ m)%nat) as [Hl|Hl].
  { by rewrite (slice_last_short m l). }
  unfold Js.slice_last at 1 3.
  rewrite !length_app, slice_last_length.
  unfold Js.slice_last.
  rewrite <- (drop_app_le l r (length l - m)) by lia.
  rewrite drop_drop. f_equal. lia.
Qed.

Lemma slice_last_full l x :
  length l = 30%nat → Js.slice_last 29 l ++ [x] = drop 1 l ++ [x].
Proof. intros H. unfold Js.slice_last. by rewrite H. Qed.
End Window.

Lemma dashboard_points_length envs st :
  length (Dashboard.points envs st) = length envs.
Proof. revert st. induction envs as [|e envs IH]; intros st; simpl; [done|]. by rewrite IH. Qed.

Lemma monitor_points_length envs st :
  length (Monitor.points envs st) = length envs.
Proof. revert st. induction envs as [|e envs IH]; intros st; simpl; [done|]. by rewrite IH. Qed.

Lemma dashboard_chart_window envs st :
  Js.slice_last 30 (Dashboard.chartData (Dashboard.ticks envs st))
  = Js.slice_last 30 (Dashboard.chartData st ++ Dashboard.points envs st).
Proof.
  revert st. induction envs as [|e envs IH]; intros st.
  { simpl. by rewrite app_nil_r. }
  unfold Dashboard.ticks in *. simpl. rewrite IH. simpl.
  unfold setChartData_updater. rewrite <- !app_assoc. simpl.
  apply slice_last_app. simpl. lia.
Qed.

Lemma monitor_chart_window envs st :
  Js.slice_last 30 (Monitor.chartData (Monitor.ticks envs st))
  = Js.slice_last 30 (Monitor.chartData st ++ Monitor.points envs st).
Proof.
  revert st. induction envs as [|e envs IH]; intros st.
  { simpl. by rewrite app_nil_r. }
  unfold Monitor.ticks in *. simpl. rewrite IH. simpl.
  unfold setChartData_updater. rewrite <- !app_assoc. simpl.
  apply slice_last_app. simpl. lia.
Qed.

Lemma dashboard_chart_bound envs st :
  (length (Dashboard.chartData st) ≤ 30)%nat →
  (length (Dashboard.chartData (Dashboard.ticks envs st)) ≤ 30)%nat.
Proof.
  revert st. induction envs as [|e envs IH]; intros st Hst; [done|].
  unfold Dashboard.ticks in *. simpl. apply IH. simpl.
  unfold setChartData_updater. rewrite length_app, slice_last_length. simpl. lia.
Qed.

Lemma monitor_chart_bound envs st :
  (length (Monitor.chartData st) ≤ 30)%nat →
  (length (Monitor.chartData (Monitor.ticks envs st)) ≤ 30)%nat.
Proof.
  revert st. induction envs as [|e envs IH]; intros st Hst; [done|].
  unfold Monitor.ticks in *. simpl. apply IH. simpl.
  unfold setChartData_updater. rewrite length_app, slice_last_length. simpl. lia.
Qed.

(** C6. Starting from the empty buffer, after [n] consecutive ticks the
    buffer is the last [min n 30] of the points these ticks produced, in
    order; a tick on a full buffer drops the point at index 0 and appends
    its own; and after 31 ticks the buffer has 30 points, the first of
    which is the point of the second tick.  In both variants. *)
Theorem trend_buffer_window (rnd : nat → Q) (envs : list TickEnv) :
  (let pts := Dashboard.points envs (Dashboard.init rnd) in
   let buf := Dashboard.chartData (Dashboard.ticks envs (Dashboard.init rnd)) in
   length pts = length envs ∧
   buf = drop (length envs - 30) pts ∧
   length buf = (length envs `min` 30)%nat ∧
   (length envs = 31%nat → length buf = 30%nat ∧ buf !! 0%nat = pts !! 1%nat)) ∧
  (let pts := Monitor.points envs (Monitor.init rnd) in
   let buf := Monitor.chartData (Monitor.ticks envs (Monitor.init rnd)) in
   length pts = length envs ∧
   buf = drop (length envs - 30) pts ∧
   length buf = (length envs `min` 30)%nat ∧
   (length envs = 31%nat → length buf = 30%nat ∧ buf !! 0%nat = pts !! 1%nat)) ∧
  (∀ env st, length (Dashboard.chartData st) = 30%nat →
     Dashboard.chartData (Dashboard.tick env st)
     = drop 1 (Dashboard.chartData st)
       ++ [buildDataPoint (Dashboard.sensors st) (Dashboard.selectedSensors st)
             (clock env 0%nat)]) ∧
  (∀ env st, length (Monitor.chartData st) = 30%nat →
     Monitor.chartData (Monitor.tick env st)
     = drop 1 (Monitor.chartData st)
       ++ [buildDataPoint (Monitor.sensors st) (Monitor.selectedSensors st)
             (clock env 0%nat)]).
Proof.
  split_and!.
  - intros pts buf.
    assert (Hlen : length pts = length envs) by apply dashboard_points_length.
    assert (Hbuf : buf = drop (length envs - 30) pts).
    { subst buf pts.
      rewrite <- (slice_last_short 30 (Dashboard.chartData _))
        by (apply dashboard_chart_bound; simpl; lia).
      rewrite dashboard_chart_window. simpl. unfold Js.slice_last.
      by rewrite dashboard_points_length. }
    split_and!; [done|done| |].
    + rewrite Hbuf, length_drop. lia.
    + intros H31. rewrite Hbuf, length_drop, lookup_drop, H31, Hlen, H31. done.
  - intros pts buf.
    assert (Hlen : length pts = length envs) by apply monitor_points_length.
    assert (Hbuf : buf = drop (length envs - 30) pts).
    { subst buf pts.
      rewrite <- (slice_last_short 30 (Monitor.chartData _))
        by (apply monitor_chart_bound; simpl; lia).
      rewrite monitor_chart_window. simpl. unfold Js.slice_last.
      by rewrite monitor_points_length. }
    split_and!; [done|done| |].
    + rewrite Hbuf, length_drop. lia.
    + intros H31. rewrite Hbuf, length_drop, lookup_drop, H31, Hlen, H31. done.
  - intros env st Hfull. simpl. by apply slice_last_full.
  - intros env st Hfull. simpl. by apply slice_last_full.
Qed.

Lemma trend_buffer_window_witness :
  let envs := replicate 31 half_env in
  let st := Monitor.init (λ _, 1 # 2)%Q in
  length (Monitor.chartData (Monitor.ticks envs st)) = 30%nat ∧
  Monitor.chartData (Monitor.ticks envs st) !! 0%nat
  = Monitor.points envs st !! 1%nat.
Proof.
  intros envs st.
  destruct (trend_buffer_window (λ _, 1 # 2)%Q envs) as (_ & (_ & _ & _ & H31) & _).
  apply H31. reflexivity.
Defined.

(** ** Sequence numbers of the event log *)

(** Once the log holds 100 entries, every tick numbers its five new entries
    101 to 105 and the log stays at 100 entries. *)
Lemma log_numbers_at_capacity sensors clk prev :
  length prev = 100%nat → (5 ≤ length sensors)%nat →
  Log.no <$> Monitor.recentSensors sensors clk prev = [101; 102; 103; 104; 105] ∧
  length (Monitor.setDataLog_updater sensors clk prev) = 100%nat.
Proof.
  intros Hprev Hlen. split.
  - destruct sensors as [|s0 [|s1 [|s2 [|s3 [|s4 rest]]]]]; simpl in Hlen; try lia.
    unfold Monitor.recentSensors, Monitor.logEntry. simpl. rewrite Hprev.
    reflexivity.
  - unfold Monitor.setDataLog_updater, Js.slice_to.
    rewrite length_take, length_app, recentSensors_length. lia.
Qed.

(** C4 (the code departs from the claim). Run 22 ticks from the initial
    state: the log is full after tick 20, and the entries created by tick 21
    and those created by tick 22 both carry the numbers 101 to 105, so the
    numbers given out by tick 22 are not greater than those of tick 21. *)
Theorem log_numbers_repeat :
  let st20 := Monitor.ticks (replicate 20 half_env) (Monitor.init (λ _, 1 # 2)%Q) in
  let st21 := Monitor.tick half_env st20 in
  let st22 := Monitor.tick half_env st21 in
  length (Monitor.dataLog st20) = 100%nat ∧
  Log.no <$> take 5 (Monitor.dataLog st20) = [96; 97; 98; 99; 100] ∧
  Log.no <$> take 5 (Monitor.dataLog st21) = [101; 102; 103; 104; 105] ∧
  Log.no <$> take 5 (Monitor.dataLog st22) = [101; 102; 103; 104; 105].
Proof. vm_compute. split_and!; reflexivity. Qed.

(** * Further properties *)

(** ** States the interface can reach *)

Lemma collection_ok_ids l : collection_ok l → id <$> l ≡ₚ seqZ 1 52.
Proof.
  intros (_ & Hnd & Hin & _).
  apply NoDup_Permutation; [done|apply NoDup_seqZ|].
  intros i. rewrite Hin, elem_of_seqZ. lia.
Qed.

Lemma dashboard_ui_sensors (P : list Sensor → Prop) rnd es :
  P (generateTEPData Dashboard.initStatus rnd) →
  (∀ r prev, P prev → P (setSensors_updater Dashboard.nextStatus r prev)) →
  P (Dashboard.sensors (DashboardUi.run es (Dashboard.init rnd))).
Proof.
  intros Hinit Hstep. induction es as [|e es IH] using rev_ind; [done|].
  unfold DashboardUi.run in *. rewrite foldl_app. simpl.
  destruct e as [env|index]; simpl; [by apply Hstep|].
  by destruct (ranking _ !! index).
Qed.

Lemma monitor_ui_sensors (P : list Sensor → Prop) rnd es :
  P (generateTEPData Monitor.initStatus rnd) →
  (∀ r prev, P prev → P (setSensors_updater Monitor.nextStatus r prev)) →
  P (Monitor.sensors (MonitorUi.run es (Monitor.init rnd))).
Proof.
  intros Hinit Hstep. induction es as [|e es IH] using rev_ind; [done|].
  unfold MonitorUi.run in *. rewrite foldl_app. simpl.
  destruct e as [env|index|idx]; simpl; [by apply Hstep| |].
  - by destruct (ranking _ !! index).
  - unfold MonitorUi.chipClick. by destruct (Monitor.selectedSensors _ !! idx).
Qed.

Lemma dashboard_ui_collection rnd es :
  collection_ok (Dashboard.sensors (DashboardUi.run es (Dashboard.init rnd))).
Proof.
  apply dashboard_ui_sensors; [apply generateTEPData_ok|].
  intros r prev Hok. by apply setSensors_updater_ok, collection_ok_ids.
Qed.

Lemma monitor_ui_collection rnd es :
  collection_ok (Monitor.sensors (MonitorUi.run es (Monitor.init rnd))).
Proof.
  apply monitor_ui_sensors; [apply generateTEPData_ok|].
  intros r prev Hok. by apply setSensors_updater_ok, collection_ok_ids.
Qed.

Section Preserved.
Variable initStatus : Q → string.
Variable nextStatus : Q → Sensor → string.
Variable P : Sensor → Prop.

Lemma generateTEPData_Forall rnd :
  (∀ i, P (newSensor initStatus rnd i)) →
  Forall P (generateTEPData initStatus rnd).
Proof.
  intros HP. unfold generateTEPData. rewrite sort_Permutation.
  apply Forall_fmap, Forall_forall. intros i _. apply HP.
Qed.

Lemma setSensors_updater_Forall rnd prev :
  (∀ k s, s ∈ prev → P s → P (updateSensor nextStatus rnd k s)) →
  Forall P prev → Forall P (setSensors_updater nextStatus rnd prev).
Proof.
  intros HP Hprev. unfold setSensors_updater. rewrite sort_Permutation.
  apply Forall_lookup. intros k s'. rewrite list_lookup_imap.
  destruct (prev !! k) as [s|] eqn:Hs; simpl; [|done].
  intros [= <-]. apply HP; [by eapply list_elem_of_lookup_2|].
  by eapply (proj1 (Forall_lookup _ _)).
Qed.
End Preserved.

Lemma newSensor_in_range ist rnd i : unit_draws rnd → in_range (newSensor ist rnd i).
Proof.
  intros Hr. unfold in_range, newSensor. cbn [value risk].
  pose proof (Hr (3 * Z.to_nat (i - 1))%nat).
  pose proof (Hr (3 * Z.to_nat (i - 1) + 1)%nat). lra.
Qed.

Lemma dashboard_ui_labelled rnd es :
  Forall labelled (Dashboard.sensors (DashboardUi.run es (Dashboard.init rnd))).
Proof.
  apply dashboard_ui_sensors.
  - by apply generateTEPData_Forall.
  - intros r prev. apply setSensors_updater_Forall. by intros k s _ Hs.
Qed.

Lemma monitor_ui_labelled rnd es :
  Forall labelled (Monitor.sensors (MonitorUi.run es (Monitor.init rnd))).
Proof.
  apply monitor_ui_sensors.
  - by apply generateTEPData_Forall.
  - intros r prev. apply setSensors_updater_Forall. by intros k s _ Hs.
Qed.

Lemma dashboard_ui_in_range rnd es :
  unit_draws rnd →
  Forall in_range (Dashboard.sensors (DashboardUi.run es (Dashboard.init rnd))).
Proof.
  intros Hr. apply dashboard_ui_sensors.
  - apply generateTEPData_Forall. intros i. by apply newSensor_in_range.
  - intros r prev _. apply setSensors_updater_in_range.
Qed.

Lemma monitor_ui_in_range rnd es :
  unit_draws rnd →
  Forall in_range (Monitor.sensors (MonitorUi.run es (Monitor.init rnd))).
Proof.
  intros Hr. apply monitor_ui_sensors.
  - apply generateTEPData_Forall. intros i. by apply newSensor_in_range.
  - intros r prev _. apply setSensors_updater_in_range.
Qed.

(** X1. A sensor keeps the name and the type it was created with: in every
    state the interface can reach, in both variants, each sensor is named
    [XMEAS_<id>] and its type is the one the id ranges of
    [generateTEPData] give. *)
Theorem sensors_keep_labels (rnd : nat → Q) :
  (∀ es, Forall labelled
           (Dashboard.sensors (DashboardUi.run es (Dashboard.init rnd)))) ∧
  (∀ es, Forall labelled
           (Monitor.sensors (MonitorUi.run es (Monitor.init rnd)))).
Proof.
  split; intros es; [apply dashboard_ui_labelled|apply monitor_ui_labelled].
Qed.

(** X3. If the draws of [generateTEPData] lie in [0, 1), every value and
    risk is in [0, 100] in every reachable state of both variants, whatever
    the draws of the ticks are. *)
Theorem values_stay_in_range (rnd : nat → Q) :
  unit_draws rnd →
  (∀ es, Forall in_range
           (Dashboard.sensors (DashboardUi.run es (Dashboard.init rnd)))) ∧
  (∀ es, Forall in_range
           (Monitor.sensors (MonitorUi.run es (Monitor.init rnd)))).
Proof.
  intros Hr. split; intros es.
  - by apply dashboard_ui_in_range.
  - by apply monitor_ui_in_range.
Qed.

Lemma values_stay_in_range_witness :
  Forall in_range
    (Monitor.sensors
       (MonitorUi.run [MonitorUi.Tick rising_env; MonitorUi.RowClick 4]
          (Monitor.init (λ _, 1 # 2)%Q))).
Proof.
  apply (values_stay_in_range (λ _, 1 # 2)%Q).
  intros k. split; [discriminate|reflexivity].
Defined.

(** X4. The status of a sensor is always one of the two strings of its
    variant: normal or warning in src/src/App.jsx, Normal or Critical in
    src/unnamed/part_000. *)
Theorem status_domain (rnd : nat → Q) :
  (∀ es, Forall (λ s, status s = "normal"%string ∨ status s = "warning"%string)
           (Dashboard.sensors (DashboardUi.run es (Dashboard.init rnd)))) ∧
  (∀ es, Forall (λ s, status s = "Normal"%string ∨ status s = "Critical"%string)
           (Monitor.sensors (MonitorUi.run es (Monitor.init rnd)))).
Proof.
  split; intros es.
  - apply (dashboard_ui_sensors (Forall _)).
    + apply generateTEPData_Forall. intros i. simpl.
      unfold Dashboard.initStatus. destruct (Js.gt _ _); auto.
    + intros r prev. apply setSensors_updater_Forall. intros k s _ _. simpl.
      unfold Dashboard.nextStatus. repeat destruct (Js.gt _ _); auto.
  - apply (monitor_ui_sensors (Forall _)).
    + apply generateTEPData_Forall. intros i. simpl.
      unfold Monitor.initStatus. destruct (Js.gt _ _); auto.
    + intros r prev. apply setSensors_updater_Forall. intros k s _ _. simpl.
      unfold Monitor.nextStatus. destruct (Js.gt _ _); auto.
Qed.

(** ** Category counts and KPI cards *)

Lemma ofType_ids t l :
  Forall labelled l →
  length (ofType t l) = length (filter (λ i, sensorType i = t) (id <$> l)).
Proof.
  unfold ofType. induction 1 as [|s l [_ Hty] _ IH]; [done|].
  rewrite fmap_cons, !filter_cons, Hty.
  destruct (decide (sensorType (id s) = t)); simpl; by rewrite IH.
Qed.

Lemma ofType_count t l :
  collection_ok l → Forall labelled l →
  t ∈ ["temperature"; "pressure"; "flow"; "composition"]%string →
  length (ofType t l) = 13%nat.
Proof.
  intros Hok Hlab Ht. rewrite ofType_ids by done.
  rewrite (collection_ok_ids l Hok).
  repeat (apply elem_of_cons in Ht as [->|Ht]; [reflexivity|]).
  by apply elem_of_nil in Ht.
Qed.

(** X2. In every reachable state of both variants there are exactly 13
    sensors of each of the four types. *)
Theorem category_counts (rnd : nat → Q) (t : string) :
  t ∈ ["temperature"; "pressure"; "flow"; "composition"]%string →
  (∀ es, length (ofType t (Dashboard.sensors
                             (DashboardUi.run es (Dashboard.init rnd)))) = 13%nat) ∧
  (∀ es, length (ofType t (Monitor.sensors
                             (MonitorUi.run es (Monitor.init rnd)))) = 13%nat).
Proof.
  intros Ht. split; intros es.
  - apply ofType_count; [apply dashboard_ui_collection|apply dashboard_ui_labelled|done].
  - apply ofType_count; [apply monitor_ui_collection|apply monitor_ui_labelled|done].
Qed.

Lemma category_counts_witness :
  length (ofType "flow"
            (Dashboard.sensors
               (DashboardUi.run [DashboardUi.Tick half_env]
                  (Dashboard.init (λ _, 1 # 2)%Q)))) = 13%nat.
Proof.
  apply (category_counts (λ _, 1 # 2)%Q "flow").
  apply (bool_decide_unpack _). vm_compute. exact I.
Defined.

Lemma ofLength_S n : (ofLength (S n) == ofLength n + 1)%Q.
Proof.
  unfold ofLength. rewrite Nat2Z.inj_succ. unfold Z.succ.
  by rewrite inject_Z_plus.
Qed.

Lemma ofLength_nonneg n : (0 <= ofLength n)%Q.
Proof.
  induction n as [|n IH]; [discriminate|]. rewrite ofLength_S. lra.
Qed.

(** A sum of terms between [lo] and [hi] lies between [lo] and [hi] times
    the number of terms. *)
Lemma sumBy_bounds (f : Sensor → Q) (lo hi : Q) l :
  Forall (λ s, lo <= f s <= hi)%Q l →
  (lo * ofLength (length l) <= sumBy f l <= hi * ofLength (length l))%Q.
Proof.
  unfold sumBy. intros Hl.
  cut (∀ acc, (acc + lo * ofLength (length l)
               <= foldl (λ acc s, acc + f s) acc l
               <= acc + hi * ofLength (length l))%Q).
  { intros H. specialize (H 0%Q). lra. }
  induction Hl as [|s l Hs _ IH]; intros acc.
  - simpl. change (ofLength 0) with 0%Q. lra.
  - cbn [foldl length]. specialize (IH (acc + f s)%Q).
    pose proof (ofLength_S (length l)) as HS. rewrite HS. lra.
Qed.

Lemma divLength_bounds (a lo hi : Q) n :
  n ≠ 0%nat →
  (lo * ofLength n <= a <= hi * ofLength n)%Q →
  ∃ q, divLength a n = Some q ∧ (lo <= q <= hi)%Q.
Proof.
  intros Hn [Hlo Hhi]. destruct n as [|n]; [done|].
  exists (a / ofLength (S n))%Q. split; [done|].
  assert (0 < ofLength (S n))%Q.
  { pose proof (ofLength_nonneg n). rewrite ofLength_S. lra. }
  split; [by apply Qle_shift_div_l|by apply Qle_shift_div_r].
Qed.

Lemma average_bounds (f : Sensor → Q) (lo hi : Q) l :
  l ≠ [] → Forall (λ s, lo <= f s <= hi)%Q l →
  ∃ q, divLength (sumBy f l) (length l) = Some q ∧ (lo <= q <= hi)%Q.
Proof.
  intros Hne Hl. apply divLength_bounds; [by destruct l|].
  by apply sumBy_bounds.
Qed.

Lemma ofType_in_range t l :
  Forall in_range l → Forall (λ s, 0 <= value s <= 100)%Q (ofType t l).
Proof.
  intros Hl. apply Forall_forall. intros s [_ Hs]%list_elem_of_filter.
  by apply (proj1 (Forall_forall _ _) Hl s Hs).
Qed.

Lemma category_average t l :
  collection_ok l → Forall labelled l → Forall in_range l →
  t ∈ ["temperature"; "pressure"; "flow"; "composition"]%string →
  ∃ q, divLength (sumBy value (ofType t l)) (length (ofType t l)) = Some q ∧
       (0 <= q <= 100)%Q.
Proof.
  intros Hok Hlab Hrange Ht. apply average_bounds; [|by apply ofType_in_range].
  intros Hnil. pose proof (ofType_count t l Hok Hlab Ht) as Hlen.
  by rewrite Hnil in Hlen.
Qed.

(** X5. With initial draws in [0, 1), the three category averages of
    src/src/App.jsx are numbers (never the NaN of an empty category) between
    0 and 100 in every reachable state. *)
Theorem category_averages_defined (rnd : nat → Q) (es : list DashboardUi.Event) :
  unit_draws rnd →
  let sensors := Dashboard.sensors (DashboardUi.run es (Dashboard.init rnd)) in
  (∃ q, DashboardKpi.avgTemperature sensors = Some q ∧ (0 <= q <= 100)%Q) ∧
  (∃ q, DashboardKpi.avgPressure sensors = Some q ∧ (0 <= q <= 100)%Q) ∧
  (∃ q, DashboardKpi.avgFlow sensors = Some q ∧ (0 <= q <= 100)%Q).
Proof.
  intros Hr sensors.
  assert (Hok : collection_ok sensors) by apply dashboard_ui_collection.
  assert (Hlab : Forall labelled sensors) by apply dashboard_ui_labelled.
  assert (Hrange : Forall in_range sensors) by by apply dashboard_ui_in_range.
  split_and!; apply category_average; try done.
  - left.
  - right; left.
  - right; right; left.
Qed.

Lemma category_averages_defined_witness :
  ∃ q, DashboardKpi.avgFlow
         (Dashboard.sensors
            (DashboardUi.run [DashboardUi.Tick rising_env]
               (Dashboard.init (λ _, 1 # 2)%Q))) = Some q ∧ (0 <= q <= 100)%Q.
Proof.
  apply (category_averages_defined (λ _, 1 # 2)%Q [DashboardUi.Tick rising_env]).
  intros k. split; [discriminate|reflexivity].
Defined.

Lemma filter_all_length {A} (P : A → Prop) `{∀ x, Decision (P x)} (l : list A) :
  length (filter P l) = length l ↔ Forall P l.
Proof.
  induction l as [|x l IH]; [by split|].
  rewrite filter_cons. destruct (decide (P x)) as [HP|HP]; simpl.
  - rewrite Forall_cons. split.
    + intros [= Hlen]. split; [done|by apply IH].
    + intros [_ Hl]. f_equal. by apply IH.
  - pose proof (length_filter P l). split; [lia|].
    intros [? _]%Forall_cons. done.
Qed.

Lemma filter_none_length {A} (P : A → Prop) `{∀ x, Decision (P x)} (l : list A) :
  length (filter P l) = 0%nat ↔ Forall (λ x, ¬ P x) l.
Proof.
  induction l as [|x l IH]; [by split|].
  rewrite filter_cons, Forall_cons. destruct (decide (P x)) as [HP|HP]; simpl.
  - split; [done|]. by intros [? _].
  - rewrite IH. by split; [|intros [_ ?]].
Qed.

Lemma ofLength_eq m n : (ofLength m == ofLength n)%Q ↔ m = n.
Proof. unfold ofLength. rewrite inject_Z_injective. lia. Qed.

Lemma ofLength_le m n : (m ≤ n)%nat → (ofLength m <= ofLength n)%Q.
Proof. intros H. unfold ofLength. rewrite <- Zle_Qle. lia. Qed.

(** X6. [systemHealth] is NaN exactly for the empty array; otherwise it is
    a number between 0 and 100, which is 100 exactly when every status is
    normal and 0 exactly when none is. *)
Theorem systemHealth_bounds (sensors : list Sensor) :
  (DashboardKpi.systemHealth sensors = None ↔ sensors = []) ∧
  (∀ h, DashboardKpi.systemHealth sensors = Some h →
        (0 <= h <= 100)%Q ∧
        ((h == 100)%Q ↔ Forall (λ s, status s = "normal"%string) sensors) ∧
        ((h == 0)%Q ↔ Forall (λ s, status s ≠ "normal"%string) sensors)).
Proof.
  unfold DashboardKpi.systemHealth. split.
  - destruct sensors; simpl; by split.
  - intros h Hh. destruct sensors as [|s0 l]; [done|].
    set (all := s0 :: l) in *.
    set (k := length (filter (λ s, status s = "normal"%string) all)) in *.
    assert (Hk : (k ≤ length all)%nat) by apply length_filter.
    change (length all) with (S (length l)) in Hh. simpl in Hh.
    injection Hh as <-.
    change (S (length l)) with (length all) in *.
    assert (Hpos : (0 < ofLength (length all))%Q).
    { change (length all) with (S (length l)).
      pose proof (ofLength_nonneg (length l)). rewrite ofLength_S. lra. }
    set (d := ofLength (length all)) in *.
    assert (Hq : (ofLength k / d * d == ofLength k)%Q).
    { rewrite Qmult_comm. apply Qmult_div_r. lra. }
    pose proof (ofLength_nonneg k) as Hk0.
    pose proof (ofLength_le _ _ Hk) as Hkd. fold d in Hkd.
    set (q := (ofLength k / d)%Q) in *.
    assert (Hq0 : (0 <= q)%Q).
    { apply Qle_shift_div_l; [done|]. lra. }
    assert (Hq1 : (q <= 1)%Q).
    { apply Qle_shift_div_r; [done|]. lra. }
    split; [|split].
    + lra.
    + rewrite <- (filter_all_length (λ s, status s = "normal"%string) all).
      fold k. rewrite <- ofLength_eq. fold d. split.
      * intros H100. assert (Hq' : (q == 1)%Q) by lra.
        rewrite Hq' in Hq. lra.
      * intros Heq. rewrite Heq in Hq.
        assert (Hq' : (q == 1)%Q).
        { apply (Qmult_inj_r q 1 d); lra. }
        lra.
    + rewrite <- (filter_none_length (λ s, status s = "normal"%string) all).
      fold k. rewrite <- (ofLength_eq k 0). change (ofLength 0) with 0%Q. split.
      * intros H0. assert (Hq' : (q == 0)%Q) by lra.
        rewrite Hq' in Hq. lra.
      * intros Heq. rewrite Heq in Hq.
        assert (Hq' : (q == 0)%Q).
        { apply (Qmult_inj_r q 0 d); lra. }
        lra.
Qed.

(** ** Ranking *)

Lemma sorted_lookup l i j a b :
  StronglySorted riskDesc l → (i < j)%nat →
  l !! i = Some a → l !! j = Some b → riskDesc a b.
Proof.
  intros Hs. revert i j. induction Hs as [|x l Hs IH Hall]; intros i j Hij Ha Hb.
  { done. }
  destruct j as [|j]; [lia|]. destruct i as [|i].
  - simpl in Ha, Hb. injection Ha as <-.
    apply (proj1 (Forall_forall _ _) Hall). by eapply list_elem_of_lookup_2.
  - simpl in Ha, Hb. apply (IH i j); [lia|done|done].
Qed.

Lemma sorted_lookup_le l i j a b :
  StronglySorted riskDesc l → (i ≤ j)%nat →
  l !! i = Some a → l !! j = Some b → riskDesc a b.
Proof.
  intros Hs Hij Ha Hb. destruct (decide (i = j)) as [->|Hne].
  - rewrite Ha in Hb. injection Hb as <-. unfold riskDesc. lra.
  - apply (sorted_lookup l i j); [done|lia|done|done].
Qed.


Lemma prefix_dominates n l i j a b :
  StronglySorted riskDesc l → (i < n)%nat → (n ≤ j)%nat →
  take n l !! i = Some a → l !! j = Some b → (risk b <= risk a)%Q.
Proof.
  intros Hs Hi Hj Ha Hb. rewrite lookup_take_lt in Ha by done.
  apply (sorted_lookup l i j a b); [done|lia|done|done].
Qed.

(** X8. In every reachable state of both variants the ranking list shows
    15 sensors, in descending order of risk, and no sensor left out of
    the list has a higher risk than a sensor in it. *)
Theorem ranking_shows_top (rnd : nat → Q) :
  (∀ es, let sensors := Dashboard.sensors (DashboardUi.run es (Dashboard.init rnd)) in
     length (ranking sensors) = 15%nat ∧
     StronglySorted riskDesc (ranking sensors) ∧
     ∀ i j a b, ranking sensors !! i = Some a → (15 ≤ j)%nat →
                sensors !! j = Some b → (risk b <= risk a)%Q) ∧
  (∀ es, let sensors := Monitor.sensors (MonitorUi.run es (Monitor.init rnd)) in
     length (ranking sensors) = 15%nat ∧
     StronglySorted riskDesc (ranking sensors) ∧
     ∀ i j a b, ranking sensors !! i = Some a → (15 ≤ j)%nat →
                sensors !! j = Some b → (risk b <= risk a)%Q).
Proof.
  assert (Hgen : ∀ sensors, collection_ok sensors →
     length (ranking sensors) = 15%nat ∧
     StronglySorted riskDesc (ranking sensors) ∧
     ∀ i j a b, ranking sensors !! i = Some a → (15 ≤ j)%nat →
                sensors !! j = Some b → (risk b <= risk a)%Q).
  { intros sensors (Hlen & _ & _ & Hs). unfold ranking, Js.slice_to. split_and!.
    - rewrite length_take. lia.
    - rewrite <- (take_drop 15 sensors) in Hs.
      by apply StronglySorted_app_1_l in Hs.
    - intros i j a b Ha Hj Hb.
      assert (i < 15)%nat.
      { apply lookup_lt_Some in Ha. rewrite length_take in Ha. lia. }
      by apply (prefix_dominates 15 sensors i j a b). }
  split; intros es sensors; apply Hgen.
  - apply dashboard_ui_collection.
  - apply monitor_ui_collection.
Qed.

Lemma riskTextClass_red r : riskTextClass r = "text-red-400"%string ↔ (70 < r)%Q.
Proof.
  unfold riskTextClass. destruct (Js.gt r 70) eqn:H70.
  - apply gt_true in H70. done.
  - apply gt_false in H70. split; [|lra].
    destruct (Js.gt r 40); discriminate.
Qed.

Lemma riskTextClass_emerald r :
  riskTextClass r = "text-emerald-400"%string ↔ (r <= 40)%Q.
Proof.
  unfold riskTextClass. destruct (Js.gt r 70) eqn:H70.
  - apply gt_true in H70. split; [discriminate|lra].
  - destruct (Js.gt r 40) eqn:H40.
    + apply gt_true in H40. split; [discriminate|lra].
    + apply gt_false in H40. done.
Qed.

(** X9. Down the ranking list the risk colours never get more severe: in
    every reachable state of both variants, below a sensor that is not shown
    in red none is red, and below one shown in green all are green. *)
Theorem ranking_colours_descend (rnd : nat → Q) :
  (∀ es i j a b, (i < j)%nat →
     ranking (Dashboard.sensors (DashboardUi.run es (Dashboard.init rnd))) !! i = Some a →
     ranking (Dashboard.sensors (DashboardUi.run es (Dashboard.init rnd))) !! j = Some b →
     (riskTextClass (risk b) = "text-red-400"%string →
      riskTextClass (risk a) = "text-red-400"%string) ∧
     (riskTextClass (risk a) = "text-emerald-400"%string →
      riskTextClass (risk b) = "text-emerald-400"%string)) ∧
  (∀ es i j a b, (i < j)%nat →
     ranking (Monitor.sensors (MonitorUi.run es (Monitor.init rnd))) !! i = Some a →
     ranking (Monitor.sensors (MonitorUi.run es (Monitor.init rnd))) !! j = Some b →
     (riskTextClass (risk b) = "text-red-400"%string →
      riskTextClass (risk a) = "text-red-400"%string) ∧
     (riskTextClass (risk a) = "text-emerald-400"%string →
      riskTextClass (risk b) = "text-emerald-400"%string)).
Proof.
  assert (Hgen : ∀ sensors i j a b, collection_ok sensors → (i < j)%nat →
     ranking sensors !! i = Some a → ranking sensors !! j = Some b →
     (riskTextClass (risk b) = "text-red-400"%string →
      riskTextClass (risk a) = "text-red-400"%string) ∧
     (riskTextClass (risk a) = "text-emerald-400"%string →
      riskTextClass (risk b) = "text-emerald-400"%string)).
  { intros sensors i j a b (_ & _ & _ & Hs) Hij Ha Hb.
    unfold ranking, Js.slice_to in *.
    apply lookup_take_Some in Ha as [Ha _]. apply lookup_take_Some in Hb as [Hb _].
    pose proof (sorted_lookup sensors i j a b Hs Hij Ha Hb) as Hle.
    unfold riskDesc in Hle.
    rewrite !riskTextClass_red, !riskTextClass_emerald. split; lra. }
  split; intros es i j a b; apply Hgen.
  - apply dashboard_ui_collection.
  - apply monitor_ui_collection.
Qed.

(** ** Size of one tick's change *)

Lemma clamp_step x d lo hi :
  (0 <= x <= 100)%Q → (lo <= d <= hi)%Q → (lo <= 0 <= hi)%Q →
  (x + lo <= clamp (x + d) <= x + hi)%Q.
Proof.
  intros Hx Hd Hz. unfold clamp, Js.Math_max, Js.Math_min.
  repeat destruct (Qlt_le_dec _ _); lra.
Qed.

Section Step.
Variable nextStatus : Q → Sensor → string.

Lemma updateSensor_step rnd k s :
  unit_draws rnd → in_range s →
  (value s - (5 # 2) <= value (updateSensor nextStatus rnd k s) <= value s + (5 # 2))%Q ∧
  (risk s - (3 # 2) <= risk (updateSensor nextStatus rnd k s) <= risk s + (3 # 2))%Q.
Proof.
  intros Hr [Hv Hk]. unfold updateSensor. cbn [value risk].
  pose proof (perturb_5 _ (Hr (3 * k)%nat)) as H5.
  pose proof (perturb_3 _ (Hr (3 * k + 1)%nat)) as H3.
  pose proof (clamp_step (value s) _ (- (5 # 2)) (5 # 2) Hv H5).
  pose proof (clamp_step (risk s) _ (- (3 # 2)) (3 # 2) Hk H3).
  lra.
Qed.

Lemma updateSensor_in_tick rnd prev k s :
  prev !! k = Some s →
  updateSensor nextStatus rnd k s ∈ setSensors_updater nextStatus rnd prev.
Proof.
  intros Hs. unfold setSensors_updater. rewrite sort_Permutation.
  apply (list_elem_of_lookup_2 _ k). by rewrite list_lookup_imap, Hs.
Qed.

Lemma updater_keeps_order rnd prev ka kb a b i j :
  unit_draws rnd →
  prev !! ka = Some a → prev !! kb = Some b →
  in_range a → in_range b → (risk b + 3 < risk a)%Q →
  setSensors_updater nextStatus rnd prev !! i = Some (updateSensor nextStatus rnd ka a) →
  setSensors_updater nextStatus rnd prev !! j = Some (updateSensor nextStatus rnd kb b) →
  (i < j)%nat.
Proof.
  intros Hr Ha Hb Hra Hrb Hgap Hi Hj.
  destruct (updateSensor_step rnd ka a Hr Hra) as [_ Ha'].
  destruct (updateSensor_step rnd kb b Hr Hrb) as [_ Hb'].
  destruct (decide (i < j)%nat) as [|Hge]; [done|].
  assert (Hle : riskDesc (updateSensor nextStatus rnd kb b)
                         (updateSensor nextStatus rnd ka a)).
  { apply (sorted_lookup_le (setSensors_updater nextStatus rnd prev) j i);
      [apply sort_byRisk_sorted|lia|done|done]. }
  unfold riskDesc in Hle. lra.
Qed.
End Step.

(** X10. With draws in [0, 1), one tick moves the value of a sensor whose
    value and risk are in [0, 100] by at most 2.5 and its risk by at most
    1.5; in both variants. *)
Theorem tick_step_size (env : TickEnv) (k : nat) (s : Sensor) :
  unit_draws (random env) → in_range s →
  (∀ st, Dashboard.sensors st !! k = Some s →
     ∃ s', s' ∈ Dashboard.sensors (Dashboard.tick env st) ∧ id s' = id s ∧
           (value s - (5 # 2) <= value s' <= value s + (5 # 2))%Q ∧
           (risk s - (3 # 2) <= risk s' <= risk s + (3 # 2))%Q) ∧
  (∀ st, Monitor.sensors st !! k = Some s →
     ∃ s', s' ∈ Monitor.sensors (Monitor.tick env st) ∧ id s' = id s ∧
           (value s - (5 # 2) <= value s' <= value s + (5 # 2))%Q ∧
           (risk s - (3 # 2) <= risk s' <= risk s + (3 # 2))%Q).
Proof.
  intros Hr Hs. split; intros st Hk.
  - exists (updateSensor Dashboard.nextStatus (random env) k s).
    split; [by apply updateSensor_in_tick|]. split; [done|].
    by apply updateSensor_step.
  - exists (updateSensor Monitor.nextStatus (random env) k s).
    split; [by apply updateSensor_in_tick|]. split; [done|].
    by apply updateSensor_step.
Qed.

Lemma tick_step_size_witness :
  ∃ s', s' ∈ Monitor.sensors
               (Monitor.tick rising_env
                  (Monitor.mkState [sample_sensor 1 99 1] [] [1] [])) ∧
        id s' = 1 ∧
        (99 - (5 # 2) <= value s' <= 99 + (5 # 2))%Q ∧
        (1 - (3 # 2) <= risk s' <= 1 + (3 # 2))%Q.
Proof.
  assert (Hr : unit_draws (random rising_env)).
  { intros k. unfold rising_env. cbn [random].
    destruct (k `mod` 3 =? 0)%nat; split; first [discriminate|reflexivity]. }
  assert (Hs : in_range (sample_sensor 1 99 1)).
  { repeat split; discriminate. }
  apply (proj2 (tick_step_size rising_env 0 (sample_sensor 1 99 1) Hr Hs)).
  reflexivity.
Defined.

(** X11. A lead of more than 3 in risk survives a tick: with draws in
    [0, 1), if sensor [a] has a risk more than 3 above that of sensor [b]
    (both in [0, 100]), then after the tick the updated [a] still comes
    before the updated [b] in the array; in both variants. *)
Theorem rank_stability (env : TickEnv) (a b : Sensor) :
  unit_draws (random env) → in_range a → in_range b →
  (risk b + 3 < risk a)%Q →
  (∀ st ka kb i j,
     Dashboard.sensors st !! ka = Some a → Dashboard.sensors st !! kb = Some b →
     Dashboard.sensors (Dashboard.tick env st) !! i
       = Some (updateSensor Dashboard.nextStatus (random env) ka a) →
     Dashboard.sensors (Dashboard.tick env st) !! j
       = Some (updateSensor Dashboard.nextStatus (random env) kb b) →
     (i < j)%nat) ∧
  (∀ st ka kb i j,
     Monitor.sensors st !! ka = Some a → Monitor.sensors st !! kb = Some b →
     Monitor.sensors (Monitor.tick env st) !! i
       = Some (updateSensor Monitor.nextStatus (random env) ka a) →
     Monitor.sensors (Monitor.tick env st) !! j
       = Some (updateSensor Monitor.nextStatus (random env) kb b) →
     (i < j)%nat).
Proof.
  intros Hr Ha Hb Hgap. split; intros st ka kb i j Hka Hkb Hi Hj.
  - by apply (updater_keeps_order Dashboard.nextStatus (random env)
                (Dashboard.sensors st) ka kb a b i j).
  - by apply (updater_keeps_order Monitor.nextStatus (random env)
                (Monitor.sensors st) ka kb a b i j).
Qed.

Lemma rank_stability_witness :
  let a := sample_sensor 1 50 60 in
  let b := sample_sensor 2 50 40 in
  let st := Monitor.mkState [b; a] [] [1] [] in
  Monitor.sensors (Monitor.tick rising_env st) !! 0%nat
    = Some (updateSensor Monitor.nextStatus (random rising_env) 1 a) ∧
  Monitor.sensors (Monitor.tick rising_env st) !! 1%nat
    = Some (updateSensor Monitor.nextStatus (random rising_env) 0 b) ∧
  (0 < 1)%nat.
Proof.
  intros a b st.
  assert (Hr : unit_draws (random rising_env)).
  { intros k. unfold rising_env. cbn [random].
    destruct (k `mod` 3 =? 0)%nat; split; first [discriminate|reflexivity]. }
  assert (Ha : in_range a) by (repeat split; discriminate).
  assert (Hb : in_range b) by (repeat split; discriminate).
  assert (Hgap : (risk b + 3 < risk a)%Q) by reflexivity.
  assert (H0 : Monitor.sensors (Monitor.tick rising_env st) !! 0%nat
               = Some (updateSensor Monitor.nextStatus (random rising_env) 1 a))
    by reflexivity.
  assert (H1 : Monitor.sensors (Monitor.tick rising_env st) !! 1%nat
               = Some (updateSensor Monitor.nextStatus (random rising_env) 0 b))
    by reflexivity.
  split; [exact H0|]. split; [exact H1|].
  apply (proj2 (rank_stability rising_env a b Hr Ha Hb Hgap) st 1%nat 0%nat);
    [reflexivity|reflexivity|exact H0|exact H1].
Defined.

(** ** What clicks leave alone *)

Lemma dashboard_ticks_cons env envs st :
  Dashboard.ticks (env :: envs) st = Dashboard.ticks envs (Dashboard.tick env st).
Proof. reflexivity. Qed.

Lemma monitor_ticks_cons env envs st :
  Monitor.ticks (env :: envs) st = Monitor.ticks envs (Monitor.tick env st).
Proof. reflexivity. Qed.

Lemma dashboard_ticks_agree envs st1 st2 :
  Dashboard.sensors st1 = Dashboard.sensors st2 →
  Dashboard.sensors (Dashboard.ticks envs st1)
  = Dashboard.sensors (Dashboard.ticks envs st2).
Proof.
  revert st1 st2. induction envs as [|env envs IH]; intros st1 st2 Hs; [done|].
  rewrite !dashboard_ticks_cons. apply IH. simpl. by rewrite Hs.
Qed.

Lemma monitor_ticks_agree envs st1 st2 :
  Monitor.sensors st1 = Monitor.sensors st2 →
  Monitor.dataLog st1 = Monitor.dataLog st2 →
  Monitor.sensors (Monitor.ticks envs st1) = Monitor.sensors (Monitor.ticks envs st2) ∧
  Monitor.dataLog (Monitor.ticks envs st1) = Monitor.dataLog (Monitor.ticks envs st2).
Proof.
  revert st1 st2. induction envs as [|env envs IH]; intros st1 st2 Hs Hl; [done|].
  rewrite !monitor_ticks_cons. apply IH; simpl; by rewrite Hs, ?Hl.
Qed.

(** X12. Clicks never influence the sensors or the log: after any sequence
    of interface events the sensor array (and, in src/unnamed/part_000, the
    data log) is the one the ticks of that sequence alone produce. *)
Theorem clicks_leave_sensors_and_log :
  (∀ es st, Dashboard.sensors (DashboardUi.run es st)
            = Dashboard.sensors (Dashboard.ticks (dashboardTicks es) st)) ∧
  (∀ es st, Monitor.sensors (MonitorUi.run es st)
            = Monitor.sensors (Monitor.ticks (monitorTicks es) st) ∧
            Monitor.dataLog (MonitorUi.run es st)
            = Monitor.dataLog (Monitor.ticks (monitorTicks es) st)).
Proof.
  split.
  - intros es. induction es as [|e es IH]; intros st; [done|].
    change (DashboardUi.run (e :: es) st)
      with (DashboardUi.run es (DashboardUi.step st e)).
    rewrite IH. destruct e as [env|index]; simpl; [done|].
    apply dashboard_ticks_agree. by destruct (ranking _ !! index).
  - intros es. induction es as [|e es IH]; intros st; [done|].
    change (MonitorUi.run (e :: es) st)
      with (MonitorUi.run es (MonitorUi.step st e)).
    destruct (IH (MonitorUi.step st e)) as [-> ->].
    destruct e as [env|index|idx]; simpl; [done| |].
    + apply monitor_ticks_agree; by destruct (ranking _ !! index).
    + apply monitor_ticks_agree; unfold MonitorUi.chipClick;
        by destruct (Monitor.selectedSensors st !! idx).
Qed.

(** ** Event log: length, numbering and retention *)

Lemma recentSensors_numbers sensors clk prev :
  (5 ≤ length sensors)%nat →
  Log.no <$> Monitor.recentSensors sensors clk prev
  = seqZ (Z.of_nat (length prev) + 1) 5.
Proof.
  intros Hlen.
  destruct sensors as [|s0 [|s1 [|s2 [|s3 [|s4 rest]]]]]; simpl in Hlen; try lia.
  unfold Monitor.recentSensors, Monitor.logEntry. simpl.
  unfold seqZ. simpl. repeat (f_equal; try lia).
Qed.

Lemma setDataLog_updater_length sensors clk prev :
  (5 ≤ length sensors)%nat →
  length (Monitor.setDataLog_updater sensors clk prev)
  = ((5 + length prev) `min` 100)%nat.
Proof.
  intros Hlen. unfold Monitor.setDataLog_updater, Js.slice_to.
  rewrite length_take, length_app, recentSensors_length. lia.
Qed.

Lemma setDataLog_updater_below sensors clk prev :
  (5 ≤ length sensors)%nat → (length prev ≤ 95)%nat →
  Monitor.setDataLog_updater sensors clk prev
  = Monitor.recentSensors sensors clk prev ++ prev.
Proof.
  intros Hlen Hprev. unfold Monitor.setDataLog_updater, Js.slice_to.
  apply take_ge. rewrite length_app, recentSensors_length. lia.
Qed.

Lemma monitorTicks_snoc es e :
  monitorTicks (es ++ [e])
  = monitorTicks es ++ match e with MonitorUi.Tick env => [env] | _ => [] end.
Proof. unfold monitorTicks. rewrite omap_app. by destruct e. Qed.

Lemma monitor_ui_snoc es e st :
  MonitorUi.run (es ++ [e]) st = MonitorUi.step (MonitorUi.run es st) e.
Proof. unfold MonitorUi.run. by rewrite foldl_app. Qed.

Lemma monitor_ui_click_log es e rnd :
  match e with MonitorUi.Tick _ => False | _ => True end →
  Monitor.dataLog (MonitorUi.step (MonitorUi.run es (Monitor.init rnd)) e)
  = Monitor.dataLog (MonitorUi.run es (Monitor.init rnd)).
Proof.
  destruct e as [env|index|idx]; simpl; [done| |]; intros _.
  - by destruct (ranking _ !! index).
  - unfold MonitorUi.chipClick. by destruct (Monitor.selectedSensors _ !! idx).
Qed.

Lemma monitor_ui_sensors_length rnd es :
  length (Monitor.sensors (MonitorUi.run es (Monitor.init rnd))) = 52%nat.
Proof. by destruct (monitor_ui_collection rnd es). Qed.

Lemma monitor_ui_log_length (rnd : nat → Q) (es : list MonitorUi.Event) :
  length (Monitor.dataLog (MonitorUi.run es (Monitor.init rnd)))
  = ((5 * length (monitorTicks es)) `min` 100)%nat.
Proof.
  induction es as [|e es IH] using rev_ind; [done|].
  rewrite monitor_ui_snoc, monitorTicks_snoc, length_app.
  destruct e as [env|index|idx].
  - simpl. rewrite setDataLog_updater_length, IH; [lia|].
    rewrite monitor_ui_sensors_length. lia.
  - rewrite monitor_ui_click_log by done. rewrite IH. simpl. lia.
  - rewrite monitor_ui_click_log by done. rewrite IH. simpl. lia.
Qed.

(** X13. In src/unnamed/part_000 the log holds five entries per tick up to
    its capacity: after any sequence of events from the initial state it has
    [min (5 n) 100] entries, [n] being the number of ticks. *)
Theorem log_length (rnd : nat → Q) (es : list MonitorUi.Event) :
  length (Monitor.dataLog (MonitorUi.run es (Monitor.init rnd)))
  = ((5 * length (monitorTicks es)) `min` 100)%nat.
Proof. apply monitor_ui_log_length. Qed.

Lemma numbering_Permutation n : numbering n ≡ₚ seqZ 1 (5 * Z.of_nat n).
Proof.
  induction n as [|n IH]; [done|].
  cbn [numbering]. rewrite IH.
  replace (5 * Z.of_nat (S n)) with (5 * Z.of_nat n + 5) by lia.
  rewrite seqZ_app by lia.
  replace (1 + 5 * Z.of_nat n) with (5 * Z.of_nat n + 1) by lia.
  apply Permutation_app_comm.
Qed.

Lemma monitor_ui_log_numbers rnd es :
  (length (monitorTicks es) ≤ 20)%nat →
  Log.no <$> Monitor.dataLog (MonitorUi.run es (Monitor.init rnd))
  = numbering (length (monitorTicks es)).
Proof.
  induction es as [|e es IH] using rev_ind; [done|].
  rewrite monitor_ui_snoc, monitorTicks_snoc, length_app.
  destruct e as [env|index|idx].
  - simpl. intros Hn.
    pose proof (monitor_ui_log_length rnd es) as Hlen.
    rewrite setDataLog_updater_below
      by (rewrite ?monitor_ui_sensors_length, ?Hlen; lia).
    rewrite fmap_app, recentSensors_numbers
      by (rewrite monitor_ui_sensors_length; lia).
    rewrite IH by lia. rewrite Hlen.
    replace (length (monitorTicks es) + 1)%nat
      with (S (length (monitorTicks es))) by lia.
    cbn [numbering]. do 2 f_equal. lia.
  - rewrite monitor_ui_click_log by done. simpl. rewrite Nat.add_0_r. apply IH.
  - rewrite monitor_ui_click_log by done. simpl. rewrite Nat.add_0_r. apply IH.
Qed.

(** X14. Until the log is truncated the sequence numbers are what one
    expects: after [n ≤ 20] ticks (and any clicks) from the initial state the
    log holds, newest block first, the numbers [5n-4 .. 5n], ...,
    [1 .. 5]; so every number from 1 to [5n] occurs exactly once. *)
Theorem log_numbers_below_capacity (rnd : nat → Q) (es : list MonitorUi.Event) :
  (length (monitorTicks es) ≤ 20)%nat →
  let nos := Log.no <$> Monitor.dataLog (MonitorUi.run es (Monitor.init rnd)) in
  nos = numbering (length (monitorTicks es)) ∧
  NoDup nos ∧
  (∀ z, z ∈ nos ↔ 1 ≤ z ≤ 5 * Z.of_nat (length (monitorTicks es))).
Proof.
  intros Hn nos.
  assert (Hnos : nos = numbering (length (monitorTicks es)))
    by by apply monitor_ui_log_numbers.
  split; [done|]. split.
  - rewrite Hnos, numbering_Permutation. apply NoDup_seqZ.
  - intros z. rewrite Hnos, numbering_Permutation, elem_of_seqZ. lia.
Qed.

Lemma log_numbers_below_capacity_witness :
  Log.no <$> Monitor.dataLog
               (MonitorUi.run [MonitorUi.Tick half_env; MonitorUi.RowClick 0;
                               MonitorUi.Tick rising_env]
                  (Monitor.init (λ _, 1 # 2)%Q))
  = [6; 7; 8; 9; 10; 1; 2; 3; 4; 5].
Proof.
  apply (log_numbers_below_capacity (λ _, 1 # 2)%Q
           [MonitorUi.Tick half_env; MonitorUi.RowClick 0; MonitorUi.Tick rising_env]).
  simpl. lia.
Defined.

(** X15. A tick keeps the older log entries in order, five places further
    down, and drops those that would pass index 99: in every reachable
    state, the entry at index [k] is found at index [5 + k] after the tick
    when [k < 95], and nothing is at index [5 + k] when [95 ≤ k]. *)
Theorem log_keeps_older_entries (rnd : nat → Q) (es : list MonitorUi.Event)
    (env : TickEnv) (k : nat) :
  let st := MonitorUi.run es (Monitor.init rnd) in
  ((k < 95)%nat →
   Monitor.dataLog (Monitor.tick env st) !! (5 + k)%nat = Monitor.dataLog st !! k) ∧
  ((95 ≤ k)%nat → Monitor.dataLog (Monitor.tick env st) !! (5 + k)%nat = None).
Proof.
  intros st. simpl. unfold Monitor.setDataLog_updater, Js.slice_to.
  assert (Hrec : length (Monitor.recentSensors (Monitor.sensors st) (clock env)
                           (Monitor.dataLog st)) = 5%nat).
  { rewrite recentSensors_length. unfold st.
    rewrite monitor_ui_sensors_length. lia. }
  split; intros Hk.
  - rewrite lookup_take_lt by lia.
    rewrite lookup_app_r by lia. rewrite Hrec. f_equal. lia.
  - apply lookup_take_ge. lia.
Qed.

(** X16. The five entries a tick adds are those of the five sensors of
    highest risk: in every reachable state the entry at index [k < 5] of the
    new log names the sensor at index [k] of the array and carries the
    [k + 1]-th clock reading after the chart's, and no sensor at index 5 or
    beyond has a higher risk than a logged one. *)
Theorem log_records_top_five (rnd : nat → Q) (es : list MonitorUi.Event)
    (env : TickEnv) (k : nat) (a : Sensor) :
  let st := MonitorUi.run es (Monitor.init rnd) in
  (k < 5)%nat → Monitor.sensors st !! k = Some a →
  (∃ e, Monitor.dataLog (Monitor.tick env st) !! k = Some e ∧
        Log.sensorName e = name a ∧ Log.time e = clock env (k + 1)%nat) ∧
  (∀ j b, (5 ≤ j)%nat → Monitor.sensors st !! j = Some b → (risk b <= risk a)%Q).
Proof.
  intros st Hk Ha. split.
  - eexists. split; [simpl; by apply setDataLog_updater_lookup|done].
  - intros j b Hj Hb.
    destruct (monitor_ui_collection rnd es) as (_ & _ & _ & Hs).
    apply (sorted_lookup (Monitor.sensors st) k j a b); [done|lia|done|done].
Qed.

Lemma log_records_top_five_witness :
  let st := MonitorUi.run [] (Monitor.init (λ k, 1 # Pos.of_nat (S k))%Q) in
  ∃ a b, Monitor.sensors st !! 0%nat = Some a ∧
         Monitor.sensors st !! 7%nat = Some b ∧ (risk b <= risk a)%Q.
Proof.
  intros st.
  destruct (Monitor.sensors st !! 0%nat) as [a|] eqn:Ha; [|discriminate Ha].
  destruct (Monitor.sensors st !! 7%nat) as [b|] eqn:Hb; [|discriminate Hb].
  exists a, b. split; [done|]. split; [done|].
  assert (H05 : (0 < 5)%nat) by lia.
  apply (proj2 (log_records_top_five (λ k, 1 # Pos.of_nat (S k))%Q [] half_env
                  0%nat a H05 Ha) 7%nat b); [lia|exact Hb].
Defined.

(** ** Selection in reachable states *)

Lemma handleSensorClick_elem s x y :
  y ∈ handleSensorClick s x → y ∈ s ∨ y = x.
Proof.
  destruct (decide (x ∈ s)) as [Hx|Hx].
  - rewrite handleSensorClick_present by done.
    intros [_ ?]%list_elem_of_filter. by left.
  - destruct (decide (length s < 3)%nat).
    + rewrite handleSensorClick_append by done.
      intros [?| ->%list_elem_of_singleton]%elem_of_app; auto.
    + rewrite handleSensorClick_evict by done.
      intros [Hy| ->%list_elem_of_singleton]%elem_of_app; [|auto].
      left. destruct s; [done|]. simpl in Hy. by right.
Qed.

Lemma handleSensorClick_selection_ok s x :
  1 ≤ x ≤ 52 → selection_ok s → selection_ok (handleSensorClick s x).
Proof.
  intros Hx (Hlen & Hnd & Hin). split_and!.
  - by apply handleSensorClick_length.
  - by apply handleSensorClick_NoDup.
  - intros i Hi. apply handleSensorClick_elem in Hi as [Hi|Hi].
    + by apply Hin.
    + by subst.
Qed.

Lemma removeChip_selection_ok s x :
  selection_ok s → selection_ok (MonitorKpi.removeChip s x).
Proof.
  intros (Hlen & Hnd & Hin). unfold MonitorKpi.removeChip. split_and!.
  - pose proof (length_filter (λ i, i ≠ x) s). lia.
  - by apply NoDup_filter.
  - intros i [_ Hi]%list_elem_of_filter. by apply Hin.
Qed.

Lemma initial_selection_ok : selection_ok [1; 2; 3].
Proof.
  split_and!.
  - simpl. lia.
  - apply (bool_decide_unpack _). vm_compute. exact I.
  - intros i Hi. repeat (apply elem_of_cons in Hi as [->|Hi]; [lia|]).
    by apply elem_of_nil in Hi.
Qed.

Lemma ranking_id_range sensors index sensor :
  collection_ok sensors → ranking sensors !! index = Some sensor →
  1 ≤ id sensor ≤ 52.
Proof.
  intros (_ & _ & Hin & _) Hs. apply Hin, list_elem_of_fmap_2.
  unfold ranking, Js.slice_to in Hs. apply lookup_take_Some in Hs as [Hs _].
  by eapply list_elem_of_lookup_2.
Qed.

Lemma dashboard_ui_selection rnd es :
  selection_ok (Dashboard.selectedSensors (DashboardUi.run es (Dashboard.init rnd))).
Proof.
  induction es as [|e es IH] using rev_ind; [apply initial_selection_ok|].
  pose proof (dashboard_ui_collection rnd es) as Hok.
  unfold DashboardUi.run in *. rewrite foldl_app. simpl.
  destruct e as [env|index]; simpl; [done|].
  destruct (ranking _ !! index) as [sensor|] eqn:Hs; [|done]. simpl.
  apply handleSensorClick_selection_ok; [|done].
  by eapply ranking_id_range.
Qed.

Lemma monitor_ui_selection rnd es :
  selection_ok (Monitor.selectedSensors (MonitorUi.run es (Monitor.init rnd))).
Proof.
  induction es as [|e es IH] using rev_ind; [apply initial_selection_ok|].
  pose proof (monitor_ui_collection rnd es) as Hok.
  unfold MonitorUi.run in *. rewrite foldl_app. simpl.
  destruct e as [env|index|idx]; simpl; [done| |].
  - destruct (ranking _ !! index) as [sensor|] eqn:Hs; [|done]. simpl.
    apply handleSensorClick_selection_ok; [|done].
    by eapply ranking_id_range.
  - unfold MonitorUi.chipClick.
    destruct (Monitor.selectedSensors _ !! idx); [|done]. simpl.
    by apply removeChip_selection_ok.
Qed.

(** X17. In every state the interface can reach, in both variants, the
    selection holds at most three ids, no id twice, and every selected id is
    one of 1..52. *)
Theorem selection_invariant (rnd : nat → Q) :
  (∀ es, selection_ok
           (Dashboard.selectedSensors (DashboardUi.run es (Dashboard.init rnd)))) ∧
  (∀ es, selection_ok
           (Monitor.selectedSensors (MonitorUi.run es (Monitor.init rnd)))).
Proof.
  split; intros es; [apply dashboard_ui_selection|apply monitor_ui_selection].
Qed.

(** X18. A click on a chip does what a click on the ranking row of the same
    sensor would do: for the id shown on chip [idx], the chip's handler and
    [handleSensorClick] lead to the same state, and the id is gone from the
    selection. *)
Theorem chip_click_is_toggle (st : Monitor.State) (idx : nat) (sensorId : Z) :
  Monitor.selectedSensors st !! idx = Some sensorId →
  MonitorUi.chipClick idx st = Monitor.click sensorId st ∧
  sensorId ∉ Monitor.selectedSensors (MonitorUi.chipClick idx st).
Proof.
  intros Hidx. unfold MonitorUi.chipClick, Monitor.click. rewrite Hidx. split.
  - f_equal. unfold MonitorKpi.removeChip.
    rewrite handleSensorClick_present; [done|].
    by eapply list_elem_of_lookup_2.
  - simpl. unfold MonitorKpi.removeChip. rewrite list_elem_of_filter.
    intros [Hne _]. by apply Hne.
Qed.

Lemma chip_click_is_toggle_witness :
  MonitorUi.chipClick 1 (Monitor.mkState [] [] [4; 9; 2] [])
  = Monitor.click 9 (Monitor.mkState [] [] [4; 9; 2] []).
Proof.
  apply (chip_click_is_toggle (Monitor.mkState [] [] [4; 9; 2] []) 1 9).
  reflexivity.
Defined.

(** ** Chart points and chart lines in reachable states *)

Lemma filter_Forall_id {A} (P : A → Prop) `{∀ x, Decision (P x)} (l : list A) :
  Forall P l → filter P l = l.
Proof.
  induction 1 as [|x l Hx _ IH]; [done|].
  by rewrite filter_cons_True, IH.
Qed.

Lemma recordSensors_dom sensors (sel : list Z) (dp : ChartPoint) :
  dom (foldl (recordSensor sensors) dp sel)
  = dom dp ∪ list_to_set
               (sensor_key <$> filter (λ i, is_Some (findSensor sensors i)) sel).
Proof.
  revert dp. induction sel as [|j sel IH]; intros dp.
  { simpl. by rewrite (right_id_L ∅ (∪)). }
  cbn [foldl]. rewrite IH, filter_cons. unfold recordSensor.
  destruct (findSensor sensors j) as [s|] eqn:Hj.
  - rewrite decide_True by by eexists.
    rewrite fmap_cons, list_to_set_cons, dom_insert_L.
    rewrite !(assoc_L (∪)). f_equal. apply (comm_L (∪)).
  - rewrite decide_False by by intros [? ?]. done.
Qed.

Lemma selected_found sensors sel i :
  collection_ok sensors → selection_ok sel → i ∈ sel →
  is_Some (findSensor sensors i).
Proof.
  intros (_ & _ & Hin & _) (_ & _ & Hsel) Hi.
  apply findSensor_is_Some. apply Hsel, Hin in Hi.
  apply list_elem_of_fmap in Hi as (s & -> & Hs). by exists s.
Qed.

Lemma chart_point_of_selection sensors sel now :
  collection_ok sensors → selection_ok sel →
  let point := buildDataPoint sensors sel now in
  dom point = {[ "time"%string ]} ∪ list_to_set (sensor_key <$> sel) ∧
  ∀ i, i ∈ sel →
       ∃ s, s ∈ sensors ∧ id s = i ∧ point !! sensor_key i = Some (JNum (value s)).
Proof.
  intros Hok Hsel point. split.
  - unfold point, buildDataPoint. rewrite recordSensors_dom, dom_singleton_L.
    rewrite filter_Forall_id; [done|].
    apply Forall_forall. intros i Hi. by apply (selected_found sensors sel).
  - intros i Hi. destruct (selected_found sensors sel i Hok Hsel Hi) as [s Hs].
    exists s. destruct (findSensor_Some _ _ _ Hs) as [Hin Hid].
    split_and!; [done|done|]. by apply buildDataPoint_hit.
Qed.

(** X19. In reachable states the lookup of a selected sensor never misses:
    the chart point a tick appends has exactly the keys [time] and
    [sensor_<id>] for the selected ids, each holding the value, before the
    tick's update, of the sensor with that id; in both variants. *)
Theorem chart_point_complete (rnd : nat → Q) (env : TickEnv) :
  (∀ es, let st := DashboardUi.run es (Dashboard.init rnd) in
     ∃ point, last (Dashboard.chartData (Dashboard.tick env st)) = Some point ∧
       dom point = {[ "time"%string ]}
                   ∪ list_to_set (sensor_key <$> Dashboard.selectedSensors st) ∧
       ∀ i, i ∈ Dashboard.selectedSensors st →
            ∃ s, s ∈ Dashboard.sensors st ∧ id s = i ∧
                 point !! sensor_key i = Some (JNum (value s))) ∧
  (∀ es, let st := MonitorUi.run es (Monitor.init rnd) in
     ∃ point, last (Monitor.chartData (Monitor.tick env st)) = Some point ∧
       dom point = {[ "time"%string ]}
                   ∪ list_to_set (sensor_key <$> Monitor.selectedSensors st) ∧
       ∀ i, i ∈ Monitor.selectedSensors st →
            ∃ s, s ∈ Monitor.sensors st ∧ id s = i ∧
                 point !! sensor_key i = Some (JNum (value s))).
Proof.
  split; intros es st; eexists; (split; [apply last_snoc|]);
    apply chart_point_of_selection.
  - apply dashboard_ui_collection.
  - apply dashboard_ui_selection.
  - apply monitor_ui_collection.
  - apply monitor_ui_selection.
Qed.

Lemma chartLines_of_selection (sel : list Z) :
  (length sel ≤ 3)%nat → NoDup sel →
  Forall (λ line, is_Some line.2) (chartLines sel) ∧
  NoDup (chartLines sel).*1 ∧ NoDup (chartLines sel).*2.
Proof.
  intros Hlen Hnd.
  assert (Hkeys : (chartLines sel).*1 = sensor_key <$> sel).
  { unfold chartLines. rewrite fmap_imap. apply list_eq. intros k.
    rewrite list_lookup_imap, list_lookup_fmap. by destruct (sel !! k). }
  rewrite Hkeys. split_and!.
  - destruct sel as [|a [|b [|c [|d sel]]]]; simpl in Hlen; try lia;
      repeat constructor; by eexists.
  - by apply (NoDup_fmap_2 sensor_key).
  - destruct sel as [|a [|b [|c [|d sel]]]]; simpl in Hlen; try lia;
      apply (bool_decide_unpack _); vm_compute; exact I.
Qed.

(** X20. In reachable states every chart line has a colour and no two
    lines share a colour or a data key: the palette of three colours is never
    indexed out of range; in both variants. *)
Theorem chart_lines_coloured (rnd : nat → Q) :
  (∀ es, let lines := chartLines (Dashboard.selectedSensors
                                    (DashboardUi.run es (Dashboard.init rnd))) in
     Forall (λ line, is_Some line.2) lines ∧ NoDup lines.*1 ∧ NoDup lines.*2) ∧
  (∀ es, let lines := chartLines (Monitor.selectedSensors
                                    (MonitorUi.run es (Monitor.init rnd))) in
     Forall (λ line, is_Some line.2) lines ∧ NoDup lines.*1 ∧ NoDup lines.*2).
Proof.
  split; intros es lines.
  - destruct (dashboard_ui_selection rnd es) as (Hlen & Hnd & _).
    by apply chartLines_of_selection.
  - destruct (monitor_ui_selection rnd es) as (Hlen & Hnd & _).
    by apply chartLines_of_selection.
Qed.

(** X21. Colours follow positions, not sensors: when a click on a fourth
    sensor evicts the oldest of three selected ones, the two that stay move
    one colour up (the second takes the first colour, the third the second)
    and the new sensor gets the third colour. *)
Theorem eviction_shifts_colours (a b c x : Z) :
  x ∉ [a; b; c] →
  chartLines [a; b; c]
  = [(sensor_key a, sensorColors 0); (sensor_key b, sensorColors 1);
     (sensor_key c, sensorColors 2)] ∧
  chartLines (handleSensorClick [a; b; c] x)
  = [(sensor_key b, sensorColors 0); (sensor_key c, sensorColors 1);
     (sensor_key x, sensorColors 2)].
Proof.
  intros Hx. split; [done|].
  rewrite handleSensorClick_evict; [done|done|simpl; lia].
Qed.

Lemma eviction_shifts_colours_witness :
  chartLines (handleSensorClick [1; 2; 3] 4)
  = [(sensor_key 2, sensorColors 0); (sensor_key 3, sensorColors 1);
     (sensor_key 4, sensorColors 2)].
Proof.
  apply (eviction_shifts_colours 1 2 3 4).
  apply (bool_decide_unpack _). vm_compute. exact I.
Defined.

(** ** Trend buffer under arbitrary events *)

Lemma setChartData_updater_length sensors sel now prev :
  length (setChartData_updater sensors sel now prev)
  = S (length prev `min` 29)%nat.
Proof.
  unfold setChartData_updater.
  rewrite length_app, slice_last_length. simpl. lia.
Qed.

Lemma setChartData_updater_time sensors sel now prev :
  Forall (λ p : ChartPoint, is_Some (p !! "time"%string)) prev →
  Forall (λ p : ChartPoint, is_Some (p !! "time"%string))
         (setChartData_updater sensors sel now prev).
Proof.
  intros Hprev. unfold setChartData_updater, Js.slice_last.
  apply Forall_app. split; [by apply Forall_drop|].
  repeat constructor. rewrite buildDataPoint_time. by eexists.
Qed.

Lemma dashboardTicks_snoc es e :
  dashboardTicks (es ++ [e])
  = dashboardTicks es ++ match e with DashboardUi.Tick env => [env] | _ => [] end.
Proof. unfold dashboardTicks. rewrite omap_app. by destruct e. Qed.

(** X22. Whatever clicks come between the ticks, the trend buffer holds
    [min n 30] points after [n] ticks from the initial state, and every point
    in it has a [time]; in both variants. *)
Theorem chart_buffer_bound (rnd : nat → Q) :
  (∀ es, let buf := Dashboard.chartData (DashboardUi.run es (Dashboard.init rnd)) in
     length buf = (length (dashboardTicks es) `min` 30)%nat ∧
     Forall (λ p : ChartPoint, is_Some (p !! "time"%string)) buf) ∧
  (∀ es, let buf := Monitor.chartData (MonitorUi.run es (Monitor.init rnd)) in
     length buf = (length (monitorTicks es) `min` 30)%nat ∧
     Forall (λ p : ChartPoint, is_Some (p !! "time"%string)) buf).
Proof.
  split; intros es; cbv zeta.
  - induction es as [|e es [IHl IHt]] using rev_ind; [by split|].
    unfold DashboardUi.run in *. rewrite foldl_app, dashboardTicks_snoc, length_app.
    destruct e as [env|index]; simpl.
    + split; [rewrite setChartData_updater_length, IHl; lia|].
      by apply setChartData_updater_time.
    + destruct (ranking _ !! index); simpl; (split; [rewrite IHl; lia|done]).
  - induction es as [|e es [IHl IHt]] using rev_ind; [by split|].
    unfold MonitorUi.run in *. rewrite foldl_app, monitorTicks_snoc, length_app.
    destruct e as [env|index|idx]; simpl.
    + split; [rewrite setChartData_updater_length, IHl; lia|].
      by apply setChartData_updater_time.
    + destruct (ranking _ !! index); simpl; (split; [rewrite IHl; lia|done]).
    + unfold MonitorUi.chipClick.
      destruct (Monitor.selectedSensors _ !! idx); simpl;
        (split; [rewrite IHl; lia|done]).
Qed.

(** ** Uptime *)

(** X23. For a non-negative elapsed time the uptime shows whole hours and
    the remaining whole minutes: the hours are not negative, the minutes lie
    in 0..59, and together they are the elapsed time in whole minutes. *)
Theorem uptime_whole_minutes (elapsed : Z) :
  0 ≤ elapsed →
  0 ≤ MonitorKpi.uptimeHours elapsed ∧
  0 ≤ MonitorKpi.uptimeMinutes elapsed ≤ 59 ∧
  60 * MonitorKpi.uptimeHours elapsed + MonitorKpi.uptimeMinutes elapsed
  = elapsed `div` 60000.
Proof.
  intros Hpos. unfold MonitorKpi.uptimeHours, MonitorKpi.uptimeMinutes.
  assert (0 ≤ elapsed `div` 1000) by (apply Z.div_pos; lia).
  rewrite Z.rem_mod_nonneg by lia.
  Z.to_euclidean_division_equations. lia.
Qed.

Lemma uptime_whole_minutes_witness :
  60 * MonitorKpi.uptimeHours 7384999 + MonitorKpi.uptimeMinutes 7384999 = 123.
Proof.
  assert (H : 0 ≤ 7384999) by lia.
  destruct (uptime_whole_minutes 7384999 H) as (_ & _ & Heq).
  exact Heq.
Defined.

(** X24. If the clock has been set back, so that the elapsed time is
    negative, the uptime shows a negative number of hours and a number of
    minutes between -60 and 0: the remainder keeps the sign of the elapsed
    seconds and is then rounded down. *)
Theorem uptime_negative (elapsed : Z) :
  elapsed < 0 →
  MonitorKpi.uptimeHours elapsed < 0 ∧
  -60 ≤ MonitorKpi.uptimeMinutes elapsed ≤ 0.
Proof.
  intros Hneg. unfold MonitorKpi.uptimeHours, MonitorKpi.uptimeMinutes.
  Z.to_euclidean_division_equations. lia.
Qed.

Lemma uptime_negative_witness :
  MonitorKpi.uptimeHours (-3599000) < 0 ∧
  -60 ≤ MonitorKpi.uptimeMinutes (-3599000) ≤ 0 ∧
  MonitorKpi.updateUptime (-3599000) = "-1h -60m"%string.
Proof.
  assert (H : -3599000 < 0) by lia.
  destruct (uptime_negative (-3599000) H) as [Hh Hm].
  split; [exact Hh|]. split; [exact Hm|]. vm_compute. reflexivity.
Defined.

(** ** Decimal strings *)

Lemma all_chars_app P s t :
  all_chars P (s +:+ t) = all_chars P s && all_chars P t.
Proof.
  induction s as [|c s IH]; [done|].
  change (String c s +:+ t) with (String c (s +:+ t)).
  cbn [all_chars]. by rewrite IH, andb_assoc.
Qed.

Lemma pretty_N_go_digits (x : N) s :
  all_chars is_digit s = true → all_chars is_digit (pretty_N_go x s) = true.
Proof.
  revert s. induction (N.lt_wf_0 x) as [x _ IH]; intros s Hs.
  assert (x = 0 ∨ 0 < x)%N as [->|Hx] by lia.
  - by rewrite pretty_N_go_0.
  - rewrite pretty_N_go_step by done. apply IH.
    + by apply N.div_lt.
    + cbn [all_chars]. rewrite Hs, andb_true_r.
      unfold pretty_N_char. by repeat case_match.
Qed.

Lemma pretty_N_digits (x : N) : all_chars is_digit (pretty x) = true.
Proof.
  unfold pretty, pretty_N. case_decide; [done|]. by apply pretty_N_go_digits.
Qed.

Lemma pretty_nat_digits (n : nat) : all_chars is_digit (pretty n) = true.
Proof. apply pretty_N_digits. Qed.

Lemma pretty_Z_digits (z : Z) : 0 ≤ z → all_chars is_digit (pretty z) = true.
Proof.
  intros Hz. destruct z as [|p|p]; [done| |lia].
  apply (pretty_N_digits (N.pos p)).
Qed.

(** A string is cut in one way only at a character that its first part
    does not contain. *)
Lemma app_sep_inj (P : Ascii.ascii → bool) c s1 s2 r1 r2 :
  P c = false → all_chars P s1 = true → all_chars P s2 = true →
  s1 +:+ String c r1 = s2 +:+ String c r2 → s1 = s2 ∧ r1 = r2.
Proof.
  intros Hc. revert s2. induction s1 as [|a s1 IH]; intros [|b s2] H1 H2 Heq.
  - by injection Heq as ->.
  - change (String c r1 = String b (s2 +:+ String c r2)) in Heq.
    injection Heq as <- _. cbn [all_chars] in H2. rewrite Hc in H2. done.
  - change (String a (s1 +:+ String c r1) = String c r2) in Heq.
    injection Heq as -> _. cbn [all_chars] in H1. rewrite Hc in H1. done.
  - change (String a (s1 +:+ String c r1) = String b (s2 +:+ String c r2)) in Heq.
    injection Heq as -> Heq. cbn [all_chars] in H1, H2.
    apply andb_true_iff in H1 as [_ H1]. apply andb_true_iff in H2 as [_ H2].
    destruct (IH s2 H1 H2 Heq) as [-> ->]. done.
Qed.

(** The part after the last occurrence of a character is determined too. *)
Lemma app_sep_suffix (P : Ascii.ascii → bool) c s1 s2 r1 r2 :
  P c = false → all_chars P r1 = true → all_chars P r2 = true →
  s1 +:+ String c r1 = s2 +:+ String c r2 → r1 = r2.
Proof.
  intros Hc Hr1 Hr2. revert s2. induction s1 as [|a s1 IH]; intros [|b s2] Heq.
  - by injection Heq as ->.
  - change (String c r1 = String b (s2 +:+ String c r2)) in Heq.
    injection Heq as _ ->. rewrite all_chars_app in Hr1. cbn [all_chars] in Hr1.
    rewrite Hc in Hr1. by rewrite andb_false_r in Hr1.
  - change (String a (s1 +:+ String c r1) = String c r2) in Heq.
    injection Heq as _ <-. rewrite all_chars_app in Hr2. cbn [all_chars] in Hr2.
    rewrite Hc in Hr2. by rewrite andb_false_r in Hr2.
  - change (String a (s1 +:+ String c r1) = String b (s2 +:+ String c r2)) in Heq.
    injection Heq as _ Heq. by apply (IH s2).
Qed.

(** X25. For non-negative elapsed times the uptime text is the same
    exactly when the same number of whole minutes has passed: the text
    changes once a minute and two different minute counts never print
    alike. *)
Theorem uptime_text_by_minute (e1 e2 : Z) :
  0 ≤ e1 → 0 ≤ e2 →
  MonitorKpi.updateUptime e1 = MonitorKpi.updateUptime e2 ↔
  e1 `div` 60000 = e2 `div` 60000.
Proof.
  intros H1 H2.
  assert (Hparts : ∀ e, 0 ≤ e →
    0 ≤ MonitorKpi.uptimeHours e ∧ 0 ≤ MonitorKpi.uptimeMinutes e ≤ 59 ∧
    60 * MonitorKpi.uptimeHours e + MonitorKpi.uptimeMinutes e = e `div` 60000).
  { intros e He. unfold MonitorKpi.uptimeHours, MonitorKpi.uptimeMinutes.
    assert (0 ≤ e `div` 1000) by (apply Z.div_pos; lia).
    rewrite Z.rem_mod_nonneg by lia.
    Z.to_euclidean_division_equations. lia. }
  destruct (Hparts e1 H1) as (Hh1 & Hm1 & Ht1).
  destruct (Hparts e2 H2) as (Hh2 & Hm2 & Ht2).
  unfold MonitorKpi.updateUptime. split.
  - intros Heq.
    change ("h " +:+ ?x)%string with (String "h"%char (" " +:+ x)) in Heq.
    apply (app_sep_inj is_digit) in Heq as [Hh Hrest];
      [|done|by apply pretty_Z_digits..].
    apply (inj pretty) in Hh.
    change (" " +:+ ?x)%string with (String " "%char x) in Hrest.
    injection Hrest as Hrest.
    apply (app_sep_inj is_digit) in Hrest as [Hm _];
      [|done|apply pretty_Z_digits; lia..].
    apply (inj pretty) in Hm. lia.
  - intros Heq.
    assert (MonitorKpi.uptimeHours e1 = MonitorKpi.uptimeHours e2) as -> by lia.
    assert (MonitorKpi.uptimeMinutes e1 = MonitorKpi.uptimeMinutes e2) as -> by lia.
    done.
Qed.

Lemma uptime_text_by_minute_witness :
  MonitorKpi.updateUptime 7384999 = MonitorKpi.updateUptime 7380000.
Proof.
  apply (proj2 (uptime_text_by_minute 7384999 7380000 ltac:(lia) ltac:(lia))).
  reflexivity.
Defined.

(** ** Rows of the log table *)

Lemma padStart2_length s : (2 ≤ String.length (MonitorKpi.padStart2 s))%nat.
Proof.
  unfold MonitorKpi.padStart2.
  destruct s as [|a [|b s]]; simpl; lia.
Qed.

(** X26. The log table shows at most 20 rows; their React keys are
    pairwise distinct for every log, also when sequence numbers repeat (the
    row index after the last dash tells them apart); and the number column
    of each row is at least two characters wide. *)
Theorem log_row_keys_distinct (dataLog : list Log.Entry) :
  length (MonitorKpi.logRows dataLog) = (length dataLog `min` 20)%nat ∧
  NoDup (MonitorKpi.logRows dataLog).*1 ∧
  Forall (λ row, (2 ≤ String.length row.2)%nat) (MonitorKpi.logRows dataLog).
Proof.
  unfold MonitorKpi.logRows, Js.slice_to. split_and!.
  - rewrite length_imap, length_take. lia.
  - apply NoDup_alt. intros i j key.
    rewrite !list_lookup_fmap, !list_lookup_imap.
    destruct (take 20 dataLog !! i) as [ri|]; [|done].
    destruct (take 20 dataLog !! j) as [rj|]; [|done].
    simpl. intros [= <-] [= Heq]. unfold MonitorKpi.rowKey in Heq.
    change ("-" +:+ ?x)%string with (String "-"%char x) in Heq.
    apply (app_sep_suffix is_digit) in Heq;
      [|done|apply pretty_nat_digits..].
    symmetry. by apply (inj pretty) in Heq.
  - apply Forall_lookup. intros i row. rewrite list_lookup_imap.
    destruct (take 20 dataLog !! i); [|done].
    simpl. intros [= <-]. apply padStart2_length.
Qed.

(** ** Alert count after a tick *)

Lemma critical_count (F : nat → Sensor → Sensor) (g : nat → bool) l j :
  (∀ k s, status (F k s) = "Critical"%string ↔ g (j + k)%nat = true) →
  length (filter (λ s, status s = "Critical"%string) (imap F l))
  = length (filter (λ k, g k = true) (seq j (length l))).
Proof.
  revert F j. induction l as [|x l IH]; intros F j HF; [done|].
  rewrite imap_cons. cbn [length seq]. rewrite !filter_cons.
  assert (Hrest : length (filter (λ s, status s = "Critical"%string) (imap (F ∘ S) l))
                  = length (filter (λ k, g k = true) (seq (S j) (length l)))).
  { apply IH. intros k s. simpl. rewrite HF. by rewrite Nat.add_succ_r. }
  pose proof (HF 0%nat x) as H0. rewrite Nat.add_0_r in H0.
  destruct (decide (status (F 0%nat x) = "Critical"%string)) as [Hc|Hc];
    destruct (decide (g j = true)) as [Hg|Hg]; simpl; try by rewrite Hrest.
  - by apply H0 in Hc.
  - by apply H0 in Hg.
Qed.

(** X27. In src/unnamed/part_000 the alert count after a tick depends on
    that tick's status draws only, not on the sensors' values, risks or
    earlier statuses: it is the number of sensors whose status draw exceeds
    0.85. *)
Theorem alert_count_memoryless (env : TickEnv) (st : Monitor.State) :
  Monitor.alertCount (Monitor.sensors (Monitor.tick env st))
  = length (filter (λ k, Js.gt (random env (3 * k + 2)%nat) (85 # 100) = true)
              (seq 0 (length (Monitor.sensors st)))).
Proof.
  unfold Monitor.alertCount. simpl. unfold setSensors_updater.
  rewrite sort_Permutation. apply critical_count.
  intros k s. simpl. unfold Monitor.nextStatus.
  by destruct (Js.gt _ _).
Qed.
